(** * google-tasks-mcp: the tool dispatcher and the Tasks API wrapper

    A shallow embedding of [src/index.js] (tool registry and dispatcher),
    [src/tasks-api.js] (the wrapper around the remote Tasks service) and the
    server callback of [src/auth.js], with the properties of the
    specification stated and proved about it.

    JavaScript values are a small tagged union; objects are association lists
    in insertion order; a [throw] is the [Throw] outcome of an error monad that
    also threads the world (local files, clock, remote service, call log). *)

From Stdlib Require Import String Ascii List ZArith Bool Lia DecimalString.
Import ListNotations.
Set Warnings "-register-all".
Local Open Scope list_scope.
Local Open Scope string_scope.

(** ** JavaScript values *)

(** Numbers are restricted to integers: the only number the program itself
    writes is [maxResults: 100]. *)
Inductive value : Type :=
| VUndef
| VNull
| VBool (b : bool)
| VNum (z : Z)
| VStr (s : string)
| VArr (xs : list value)
| VObj (fields : list (string * value)).

(** An [Error] object as far as the program looks at it. *)
Record error : Type := mkError { err_name : string; message : string }.

Inductive result (A : Type) : Type :=
| Ok (a : A)
| Throw (e : error).
Arguments Ok {A} a.
Arguments Throw {A} e.

Definition Error (msg : string) : error := mkError "Error" msg.
Definition TypeError (msg : string) : error := mkError "TypeError" msg.

(** [ToBoolean]: the falsy values are [undefined], [null], [false], [0] and
    the empty string. *)
Definition truthy (v : value) : bool :=
  match v with
  | VUndef | VNull => false
  | VBool b => b
  | VNum z => negb (Z.eqb z 0)
  | VStr s => negb (String.eqb s "")
  | VArr _ | VObj _ => true
  end.

(** [a || b] and [a ?? b] on already evaluated operands (the right operands
    in the program are literals or plain reads). *)
Definition js_or (a b : value) : value := if truthy a then a else b.

Definition js_nullish (a b : value) : value :=
  match a with
  | VUndef | VNull => b
  | _ => a
  end.

Definition is_undefined (v : value) : bool :=
  match v with VUndef => true | _ => false end.

(** [a === "s"] for a string literal on the right. *)
Definition strict_eq_str (v : value) (s : string) : bool :=
  match v with VStr s' => String.eqb s' s | _ => false end.

(** Own-property lookup; the first binding of a key is the property. *)
Fixpoint lookup (k : string) (fields : list (string * value)) : value :=
  match fields with
  | [] => VUndef
  | (k', v) :: rest => if String.eqb k k' then v else lookup k rest
  end.

Fixpoint has_key (k : string) (fields : list (string * value)) : bool :=
  match fields with
  | [] => false
  | (k', _) :: rest => String.eqb k k' || has_key k rest
  end.

Definition keys (fields : list (string * value)) : list string :=
  map fst fields.

(** [o.k]: reading a property of [undefined] or [null] throws a [TypeError];
    primitives and arrays have none of the property names the program reads. *)
Definition get_prop (o : value) (k : string) : result value :=
  match o with
  | VUndef =>
      Throw (TypeError ("Cannot read properties of undefined (reading '"
                          ++ k ++ "')"))
  | VNull =>
      Throw (TypeError ("Cannot read properties of null (reading '"
                          ++ k ++ "')"))
  | VObj fields => Ok (lookup k fields)
  | VBool _ | VNum _ | VStr _ | VArr _ => Ok VUndef
  end.

(** ** formatTask (tasks-api.js, Helpers) *)

Definition rbind {A B} (r : result A) (f : A -> result B) : result B :=
  match r with
  | Ok a => f a
  | Throw e => Throw e
  end.

Notation "'let?' x ':=' r 'in' k" := (rbind r (fun x => k))
  (at level 10, x name, r at level 100, k at level 200).

Definition formatTask (t : value) : result value :=
  let? id := get_prop t "id" in
  let? title := get_prop t "title" in
  let? notes := get_prop t "notes" in
  let? status := get_prop t "status" in
  let? due := get_prop t "due" in
  let? completed := get_prop t "completed" in
  let? parent := get_prop t "parent" in
  let? position := get_prop t "position" in
  let? updated := get_prop t "updated" in
  let? selfLink := get_prop t "selfLink" in
  Ok (VObj [ ("id", id);
             ("title", js_or title (VStr ""));
             ("notes", js_or notes (VStr ""));
             ("status", status);
             ("due", js_or due VNull);
             ("completed", js_or completed VNull);
             ("parent", js_or parent VNull);
             ("position", js_or position VNull);
             ("updated", updated);
             ("selfLink", selfLink) ]).

(** [o.k = v] on the fields of an object: an existing property keeps its
    place, a new one goes last. *)
Fixpoint set_field (k : string) (v : value) (fields : list (string * value))
  : list (string * value) :=
  match fields with
  | [] => [(k, v)]
  | (k', v') :: rest =>
      if String.eqb k k' then (k, v) :: rest
      else (k', v') :: set_field k v rest
  end.

(** [xs.map(f)] where [f] may throw; calling [map] on anything but an array
    is a [TypeError] (no value of the model carries a function). *)
Fixpoint map_result (f : value -> result value) (xs : list value)
  : result (list value) :=
  match xs with
  | [] => Ok []
  | x :: rest =>
      let? y := f x in
      let? ys := map_result f rest in
      Ok (y :: ys)
  end.

Definition array_map (f : value -> result value) (a : value) : result value :=
  match a with
  | VArr xs => let? ys := map_result f xs in Ok (VArr ys)
  | _ => Throw (TypeError "(res.data.items || []).map is not a function")
  end.

(** ** The world the wrapper runs in *)

Inductive api_method : Type :=
| TasklistsList | TasksList | TasksGet | TasksInsert
| TasksPatch | TasksDelete | TasksMove.

(** One call on the remote service: the method and the parameter object
    handed to it. *)
Record request : Type := mkRequest { method : api_method; params : value }.

(** What [buildClient] hands to [google.tasks]: the OAuth2 client id and
    secret and the stored tokens. *)
Record client : Type :=
  mkClient { client_id : value; client_secret : value; credentials : value }.

(** A local JSON file: [None] when it does not exist, otherwise the outcome
    of [JSON.parse(readFileSync(path))].  The remote service answers a call
    with [res.data] or rejects; its answer may depend on the client and on
    the calls made so far.  [calls] is the log of calls issued, oldest
    first. *)
Record world : Type := mkWorld {
  creds_file : option (result value);
  tokens_file : option (result value);
  now : string;
  remote : client -> list request -> request -> result value;
  calls : list request
}.

Definition log_call (rq : request) (w : world) : world :=
  mkWorld (creds_file w) (tokens_file w) (now w) (remote w)
    (calls w ++ [rq])%list.

(** State-and-exception monad of the asynchronous functions. *)
Definition M (A : Type) : Type := world -> result A * world.

Definition ret {A} (a : A) : M A := fun w => (Ok a, w).
Definition throw {A} (e : error) : M A := fun w => (Throw e, w).
Definition bind {A B} (m : M A) (f : A -> M B) : M B :=
  fun w => match m w with
           | (Ok a, w') => f a w'
           | (Throw e, w') => (Throw e, w')
           end.
Definition lift {A} (r : result A) : M A := fun w => (r, w).
Definition try_catch {A} (body : M A) (handler : error -> M A) : M A :=
  fun w => match body w with
           | (Ok a, w') => (Ok a, w')
           | (Throw e, w') => handler e w'
           end.

Notation "x <- m ;; k" := (bind m (fun x => k))
  (at level 61, m at next level, right associativity).

(** ** tasks-api.js *)

(** [new Date().toISOString()] *)
Definition current_time : M value := fun w => (Ok (VStr (now w)), w).

(** The two existence tests come first, then the credentials are parsed
    and destructured, then the tokens are parsed.  The [tokens] listener
    that rewrites the tokens file runs inside the OAuth2 library on a
    refresh and is not part of any call modelled here. *)
Definition buildClient : M client :=
  fun w =>
    match creds_file w with
    | None =>
        (Throw (Error "Missing .credentials.json — run: node src/auth.js"), w)
    | Some parsed_creds =>
        match tokens_file w with
        | None =>
            (Throw (Error "Missing .tokens.json — run: node src/auth.js"), w)
        | Some parsed_tokens =>
            (let? creds := parsed_creds in
             let? installed := get_prop creds "installed" in
             let? web := get_prop creds "web" in
             let section := js_or installed web in
             let? cid := get_prop section "client_id" in
             let? csecret := get_prop section "client_secret" in
             let? tokens := parsed_tokens in
             Ok (mkClient cid csecret tokens), w)
        end
    end.

(** [await api.<method>(params)], giving [res.data]. *)
Definition call (api : client) (m : api_method) (ps : value) : M value :=
  fun w =>
    let rq := mkRequest m ps in
    (remote w api (calls w) rq, log_call rq w).

(** A parameter default [x = d]: used when the argument is [undefined]. *)
Definition default_param (x d : value) : value :=
  if is_undefined x then d else x.

Definition listTaskLists : M value :=
  api <- buildClient ;;
  data <- call api TasklistsList (VObj [("maxResults", VNum 100)]) ;;
  items <- lift (get_prop data "items") ;;
  lift (array_map
          (fun l =>
             let? id := get_prop l "id" in
             let? title := get_prop l "title" in
             let? updated := get_prop l "updated" in
             Ok (VObj [("id", id); ("title", title); ("updated", updated)]))
          (js_or items (VArr []))).

Definition listTasks (tasklistId opts : value) : M value :=
  let tasklistId := default_param tasklistId (VStr "@default") in
  let opts := default_param opts (VObj []) in
  api <- buildClient ;;
  showCompleted <- lift (get_prop opts "showCompleted") ;;
  showHidden <- lift (get_prop opts "showHidden") ;;
  dueMin <- lift (get_prop opts "dueMin") ;;
  dueMax <- lift (get_prop opts "dueMax") ;;
  data <- call api TasksList
            (VObj [ ("tasklist", tasklistId);
                    ("maxResults", VNum 100);
                    ("showCompleted", js_nullish showCompleted (VBool false));
                    ("showHidden", js_nullish showHidden (VBool false));
                    ("dueMin", dueMin);
                    ("dueMax", dueMax) ]) ;;
  items <- lift (get_prop data "items") ;;
  lift (array_map formatTask (js_or items (VArr []))).

Definition getTask (tasklistId taskId : value) : M value :=
  api <- buildClient ;;
  data <- call api TasksGet
            (VObj [("tasklist", tasklistId); ("task", taskId)]) ;;
  lift (formatTask data).

Definition createTask (tasklistId task : value) : M value :=
  let tasklistId := default_param tasklistId (VStr "@default") in
  api <- buildClient ;;
  title <- lift (get_prop task "title") ;;
  notes <- lift (get_prop task "notes") ;;
  due <- lift (get_prop task "due") ;;
  let body := VObj [ ("title", title); ("notes", notes); ("due", due);
                     ("status", VStr "needsAction") ] in
  let params := [("tasklist", tasklistId); ("requestBody", body)] in
  parent <- lift (get_prop task "parent") ;;
  let params :=
    if truthy parent then set_field "parent" parent params else params in
  data <- call api TasksInsert (VObj params) ;;
  lift (formatTask data).

(** The request body of [updateTask], built by its five [if]s. *)
Definition update_body (title notes due status : value) (time : value)
  : list (string * value) :=
  let body := [] in
  let body := if is_undefined title then body
              else set_field "title" title body in
  let body := if is_undefined notes then body
              else set_field "notes" notes body in
  let body := if is_undefined due then body
              else set_field "due" due body in
  let body := if is_undefined status then body
              else set_field "status" status body in
  let body := if strict_eq_str status "completed"
              then set_field "completed" time body else body in
  body.

Definition updateTask (tasklistId taskId updates : value) : M value :=
  api <- buildClient ;;
  title <- lift (get_prop updates "title") ;;
  notes <- lift (get_prop updates "notes") ;;
  due <- lift (get_prop updates "due") ;;
  status <- lift (get_prop updates "status") ;;
  time <- (if strict_eq_str status "completed" then current_time
           else ret VUndef) ;;
  data <- call api TasksPatch
            (VObj [ ("tasklist", tasklistId); ("task", taskId);
                    ("requestBody",
                     VObj (update_body title notes due status time)) ]) ;;
  lift (formatTask data).

Definition completeTask (tasklistId taskId : value) : M value :=
  updateTask tasklistId taskId (VObj [("status", VStr "completed")]).

Definition deleteTask (tasklistId taskId : value) : M value :=
  api <- buildClient ;;
  _ <- call api TasksDelete
         (VObj [("tasklist", tasklistId); ("task", taskId)]) ;;
  ret (VObj [("deleted", VBool true); ("taskId", taskId)]).

Definition moveTask (tasklistId taskId opts : value) : M value :=
  let opts := default_param opts (VObj []) in
  api <- buildClient ;;
  parent <- lift (get_prop opts "parent") ;;
  previous <- lift (get_prop opts "previous") ;;
  data <- call api TasksMove
            (VObj [ ("tasklist", tasklistId); ("task", taskId);
                    ("parent", parent); ("previous", previous) ]) ;;
  lift (formatTask data).

(** ** JSON.stringify(value, null, 2) *)

Definition dquote : ascii := "034"%char.
Definition backslash : ascii := "092"%char.
Definition newline : string := String "010"%char EmptyString.

Definition hex_digit (n : nat) : ascii :=
  ascii_of_nat (if Nat.ltb n 10 then 48 + n else 87 + n).

(** [QuoteJSONString] on one code unit: the quote, the backslash and the
    control characters are escaped, everything else is copied. *)
Definition escape_char (c : ascii) : string :=
  let n := nat_of_ascii c in
  let esc (x : ascii) := String backslash (String x EmptyString) in
  if Nat.eqb n 34 then esc dquote
  else if Nat.eqb n 92 then esc backslash
  else if Nat.eqb n 8 then esc "b"%char
  else if Nat.eqb n 12 then esc "f"%char
  else if Nat.eqb n 10 then esc "n"%char
  else if Nat.eqb n 13 then esc "r"%char
  else if Nat.eqb n 9 then esc "t"%char
  else if Nat.ltb n 32 then
    String backslash
      (String "u"%char
         (String "0"%char
            (String "0"%char
               (String (hex_digit (n / 16))
                  (String (hex_digit (n mod 16)) EmptyString)))))
  else String c EmptyString.

Fixpoint escape_string (s : string) : string :=
  match s with
  | EmptyString => EmptyString
  | String c rest => escape_char c ++ escape_string rest
  end.

Definition quote (s : string) : string :=
  String dquote (escape_string s ++ String dquote EmptyString).

Definition string_of_Z (z : Z) : string := NilZero.string_of_int (Z.to_int z).

(** [SerializeJSONProperty] with gap ["  "]: [None] stands for [undefined];
    an [undefined] array element prints as [null], an [undefined] property
    is left out. *)
Fixpoint serialize (indent : string) (v : value) : option string :=
  match v with
  | VUndef => None
  | VNull => Some "null"
  | VBool b => Some (if b then "true" else "false")
  | VNum z => Some (string_of_Z z)
  | VStr s => Some (quote s)
  | VArr xs =>
      let stepback := indent in
      let indent := (indent ++ "  ")%string in
      let partial :=
        map (fun x => match serialize indent x with
                      | Some s => s
                      | None => "null"
                      end) xs in
      match partial with
      | [] => Some "[]"
      | _ :: _ =>
          Some ("[" ++ newline ++ indent
                  ++ String.concat ("," ++ newline ++ indent) partial
                  ++ newline ++ stepback ++ "]")
      end
  | VObj fields =>
      let stepback := indent in
      let indent := (indent ++ "  ")%string in
      let partial :=
        flat_map (fun '(k, x) => match serialize indent x with
                                 | Some s => [(quote k ++ ": " ++ s)%string]
                                 | None => []
                                 end) fields in
      match partial with
      | [] => Some "{}"
      | _ :: _ =>
          Some ("{" ++ newline ++ indent
                  ++ String.concat ("," ++ newline ++ indent) partial
                  ++ newline ++ stepback ++ "}")
      end
  end.

Definition JSON_stringify (v : value) : value :=
  match serialize "" v with
  | Some s => VStr s
  | None => VUndef
  end.

(** ** index.js: the tool registry *)

Record prop_schema : Type := mkProp {
  ptype : string;
  pdescription : string;
  pdefault : option value;
  penum : option (list string)
}.

Record input_schema : Type := mkSchema {
  stype : string;
  properties : list (string * prop_schema);
  required : list string
}.

Record tool : Type := mkTool {
  name : string;
  description : string;
  inputSchema : input_schema
}.

Definition str_prop (d : string) : prop_schema := mkProp "string" d None None.

Definition TOOLS : list tool :=
  [ mkTool "list_task_lists"
      "Get all Google Task lists for the authenticated user."
      (mkSchema "object" [] []);
    mkTool "list_tasks"
      "Get tasks from a task list. Use tasklist_id='@default' for the default list."
      (mkSchema "object"
         [ ("tasklist_id",
            mkProp "string"
              "Task list ID. Use '@default' for the default list."
              (Some (VStr "@default")) None);
           ("show_completed",
            mkProp "boolean" "Include completed tasks. Default: false."
              (Some (VBool false)) None);
           ("due_min",
            str_prop "ISO 8601 date — only return tasks due on or after this date.");
           ("due_max",
            str_prop "ISO 8601 date — only return tasks due on or before this date.") ]
         []);
    mkTool "get_task" "Get a single task by its ID."
      (mkSchema "object"
         [ ("tasklist_id", str_prop "Task list ID.");
           ("task_id", str_prop "Task ID.") ]
         ["tasklist_id"; "task_id"]);
    mkTool "create_task" "Create a new task in a task list."
      (mkSchema "object"
         [ ("tasklist_id",
            mkProp "string"
              "Task list ID. Use '@default' for the default list."
              (Some (VStr "@default")) None);
           ("title", str_prop "Task title.");
           ("notes", str_prop "Task description / notes.");
           ("due",
            str_prop "Due date as ISO 8601 string, e.g. '2026-03-01T00:00:00.000Z'.");
           ("parent", str_prop "Parent task ID (for sub-tasks).") ]
         ["title"]);
    mkTool "update_task"
      "Update an existing task. Only provided fields are changed."
      (mkSchema "object"
         [ ("tasklist_id", str_prop "Task list ID.");
           ("task_id", str_prop "Task ID to update.");
           ("title", str_prop "New title.");
           ("notes", str_prop "New notes.");
           ("due", str_prop "New due date (ISO 8601).");
           ("status",
            mkProp "string" "Task status." None
              (Some ["needsAction"; "completed"])) ]
         ["tasklist_id"; "task_id"]);
    mkTool "complete_task" "Mark a task as completed."
      (mkSchema "object"
         [ ("tasklist_id", str_prop "Task list ID.");
           ("task_id", str_prop "Task ID.") ]
         ["tasklist_id"; "task_id"]);
    mkTool "delete_task" "Permanently delete a task."
      (mkSchema "object"
         [ ("tasklist_id", str_prop "Task list ID.");
           ("task_id", str_prop "Task ID.") ]
         ["tasklist_id"; "task_id"]);
    mkTool "move_task"
      "Move a task (reorder within a list or reparent to another task)."
      (mkSchema "object"
         [ ("tasklist_id", str_prop "Task list ID.");
           ("task_id", str_prop "Task ID to move.");
           ("parent",
            str_prop "New parent task ID (omit to make it a top-level task).");
           ("previous",
            str_prop "Task ID of the task after which this task should be placed.") ]
         ["tasklist_id"; "task_id"]) ].

Record tools_result : Type := mkToolsResult { tools : list tool }.

(** The [ListToolsRequestSchema] handler. *)
Definition listTools : M tools_result := ret (mkToolsResult TOOLS).

(** ** index.js: the tool-call handler *)

Definition text_content (text : value) : value :=
  VArr [VObj [("type", VStr "text"); ("text", text)]].

(** The [switch] inside the [try]. *)
Definition dispatch (name : string) (args : value) : M value :=
  if String.eqb name "list_task_lists" then
    listTaskLists
  else if String.eqb name "list_tasks" then
    tasklist_id <- lift (get_prop args "tasklist_id") ;;
    show_completed <- lift (get_prop args "show_completed") ;;
    due_min <- lift (get_prop args "due_min") ;;
    due_max <- lift (get_prop args "due_max") ;;
    listTasks (js_or tasklist_id (VStr "@default"))
      (VObj [ ("showCompleted", show_completed);
              ("dueMin", due_min); ("dueMax", due_max) ])
  else if String.eqb name "get_task" then
    tasklist_id <- lift (get_prop args "tasklist_id") ;;
    task_id <- lift (get_prop args "task_id") ;;
    getTask tasklist_id task_id
  else if String.eqb name "create_task" then
    tasklist_id <- lift (get_prop args "tasklist_id") ;;
    title <- lift (get_prop args "title") ;;
    notes <- lift (get_prop args "notes") ;;
    due <- lift (get_prop args "due") ;;
    parent <- lift (get_prop args "parent") ;;
    createTask (js_or tasklist_id (VStr "@default"))
      (VObj [ ("title", title); ("notes", notes);
              ("due", due); ("parent", parent) ])
  else if String.eqb name "update_task" then
    tasklist_id <- lift (get_prop args "tasklist_id") ;;
    task_id <- lift (get_prop args "task_id") ;;
    title <- lift (get_prop args "title") ;;
    notes <- lift (get_prop args "notes") ;;
    due <- lift (get_prop args "due") ;;
    status <- lift (get_prop args "status") ;;
    updateTask tasklist_id task_id
      (VObj [ ("title", title); ("notes", notes);
              ("due", due); ("status", status) ])
  else if String.eqb name "complete_task" then
    tasklist_id <- lift (get_prop args "tasklist_id") ;;
    task_id <- lift (get_prop args "task_id") ;;
    completeTask tasklist_id task_id
  else if String.eqb name "delete_task" then
    tasklist_id <- lift (get_prop args "tasklist_id") ;;
    task_id <- lift (get_prop args "task_id") ;;
    deleteTask tasklist_id task_id
  else if String.eqb name "move_task" then
    tasklist_id <- lift (get_prop args "tasklist_id") ;;
    task_id <- lift (get_prop args "task_id") ;;
    parent <- lift (get_prop args "parent") ;;
    previous <- lift (get_prop args "previous") ;;
    moveTask tasklist_id task_id
      (VObj [("parent", parent); ("previous", previous)])
  else
    throw (Error ("Unknown tool: " ++ name)).

(** The [CallToolRequestSchema] handler: [try { switch ...; return {content} }
    catch (err) { return {content, isError: true} }].  [name] and [args]
    are [request.params.name] and [request.params.arguments]; the latter is
    [undefined] when the request carries no arguments. *)
Definition callTool (name : string) (args : value) : M value :=
  try_catch
    (result <- dispatch name args ;;
     ret (VObj [("content", text_content (JSON_stringify result))]))
    (fun err =>
       ret (VObj [ ("content",
                    text_content (VStr ("Error: " ++ message err)));
                   ("isError", VBool true) ])).

(** ** Quantifying over the eight data operations *)

Inductive operation : Type :=
| OpListTaskLists
| OpListTasks (tasklistId opts : value)
| OpGetTask (tasklistId taskId : value)
| OpCreateTask (tasklistId task : value)
| OpUpdateTask (tasklistId taskId updates : value)
| OpCompleteTask (tasklistId taskId : value)
| OpDeleteTask (tasklistId taskId : value)
| OpMoveTask (tasklistId taskId opts : value).

Definition run (op : operation) : M value :=
  match op with
  | OpListTaskLists => listTaskLists
  | OpListTasks l o => listTasks l o
  | OpGetTask l t => getTask l t
  | OpCreateTask l t => createTask l t
  | OpUpdateTask l t u => updateTask l t u
  | OpCompleteTask l t => completeTask l t
  | OpDeleteTask l t => deleteTask l t
  | OpMoveTask l t o => moveTask l t o
  end.

(** The operations whose result is one normalized task. *)
Definition returns_task (op : operation) : bool :=
  match op with
  | OpGetTask _ _ | OpCreateTask _ _ | OpUpdateTask _ _ _
  | OpCompleteTask _ _ | OpMoveTask _ _ _ => true
  | OpListTaskLists | OpListTasks _ _ | OpDeleteTask _ _ => false
  end.

Definition is_tool (n : string) : bool :=
  existsb (String.eqb n) (map name TOOLS).

(** The two envelopes the tool-call handler builds. *)
Definition success_envelope (r : value) : value :=
  VObj [("content", text_content (JSON_stringify r))].

Definition error_envelope (e : error) : value :=
  VObj [ ("content", text_content (VStr ("Error: " ++ message e)));
         ("isError", VBool true) ].

(** A world with both local files in place and a remote stub that answers
    the list of task lists with one list and everything else with a bare
    task record. *)
Definition demo_world : world :=
  mkWorld
    (Some (Ok (VObj [("installed",
                      VObj [ ("client_id", VStr "cid");
                             ("client_secret", VStr "sec") ])])))
    (Some (Ok (VObj [("access_token", VStr "tok")])))
    "2026-03-01T00:00:00.000Z"
    (fun _ _ rq =>
       match method rq with
       | TasklistsList =>
           Ok (VObj [("items",
                      VArr [VObj [ ("id", VStr "L1");
                                   ("title", VStr "My Tasks");
                                   ("updated", VStr "u") ]])])
       | _ => Ok (VObj [("id", VStr "T1"); ("status", VStr "needsAction")])
       end)
    [].

Definition demo_client : client :=
  mkClient (VStr "cid") (VStr "sec") (VObj [("access_token", VStr "tok")]).

(** ** Definitions the statements use *)

(** The record [formatTask] builds from the fields it read. *)
Definition formatted (fields : list (string * value)) : list (string * value) :=
  [ ("id", lookup "id" fields);
    ("title", js_or (lookup "title" fields) (VStr ""));
    ("notes", js_or (lookup "notes" fields) (VStr ""));
    ("status", lookup "status" fields);
    ("due", js_or (lookup "due" fields) VNull);
    ("completed", js_or (lookup "completed" fields) VNull);
    ("parent", js_or (lookup "parent" fields) VNull);
    ("position", js_or (lookup "position" fields) VNull);
    ("updated", lookup "updated" fields);
    ("selfLink", lookup "selfLink" fields) ].

(** The Task shape of the specification's data model (section 3): the nine
    documented field names, in the order the specification lists them. *)
Definition task_shape : list string :=
  [ "id"; "title"; "notes"; "status"; "due"; "completed"; "parent";
    "position"; "updated" ].

(** The table of section 6 of the specification, row by row: tool name,
    required parameters, optional parameters. *)
Definition spec_table : list (string * list string * list string) :=
  [ ("list_task_lists", [], []);
    ("list_tasks", [],
     ["tasklist_id"; "show_completed"; "due_min"; "due_max"]);
    ("get_task", ["tasklist_id"; "task_id"], []);
    ("create_task", ["title"], ["tasklist_id"; "notes"; "due"; "parent"]);
    ("update_task", ["tasklist_id"; "task_id"],
     ["title"; "notes"; "due"; "status"]);
    ("complete_task", ["tasklist_id"; "task_id"], []);
    ("delete_task", ["tasklist_id"; "task_id"], []);
    ("move_task", ["tasklist_id"; "task_id"], ["parent"; "previous"]) ].

(** The defaults and the enumeration that table gives in parentheses. *)
Definition spec_defaults : list (string * string * value) :=
  [ ("list_tasks", "tasklist_id", VStr "@default");
    ("list_tasks", "show_completed", VBool false);
    ("create_task", "tasklist_id", VStr "@default") ].

Definition spec_enums : list (string * string * list string) :=
  [ ("update_task", "status", ["needsAction"; "completed"]) ].

Definition mem (k : string) (ks : list string) : bool :=
  existsb (String.eqb k) ks.

Definition param_names (s : input_schema) : list string :=
  map fst (properties s).

Definition optional_params (s : input_schema) : list string :=
  filter (fun k => negb (mem k (required s))) (param_names s).

Definition table_row (t : tool) : string * list string * list string :=
  (name t, required (inputSchema t), optional_params (inputSchema t)).

Definition declared_defaults (t : tool) : list (string * string * value) :=
  flat_map (fun '(k, p) => match pdefault p with
                           | Some d => [(name t, k, d)]
                           | None => []
                           end)
           (properties (inputSchema t)).

Definition declared_enums (t : tool) : list (string * string * list string) :=
  flat_map (fun '(k, p) => match penum p with
                           | Some vs => [(name t, k, vs)]
                           | None => []
                           end)
           (properties (inputSchema t)).

(** The operation the [switch] calls for a tool name and the properties of
    an argument object; [None] is the [default] branch. *)
Definition route (n : string) (a : list (string * value)) : option operation :=
  if String.eqb n "list_task_lists" then Some OpListTaskLists
  else if String.eqb n "list_tasks" then
    Some (OpListTasks (js_or (lookup "tasklist_id" a) (VStr "@default"))
            (VObj [ ("showCompleted", lookup "show_completed" a);
                    ("dueMin", lookup "due_min" a);
                    ("dueMax", lookup "due_max" a) ]))
  else if String.eqb n "get_task" then
    Some (OpGetTask (lookup "tasklist_id" a) (lookup "task_id" a))
  else if String.eqb n "create_task" then
    Some (OpCreateTask (js_or (lookup "tasklist_id" a) (VStr "@default"))
            (VObj [ ("title", lookup "title" a); ("notes", lookup "notes" a);
                    ("due", lookup "due" a); ("parent", lookup "parent" a) ]))
  else if String.eqb n "update_task" then
    Some (OpUpdateTask (lookup "tasklist_id" a) (lookup "task_id" a)
            (VObj [ ("title", lookup "title" a); ("notes", lookup "notes" a);
                    ("due", lookup "due" a); ("status", lookup "status" a) ]))
  else if String.eqb n "complete_task" then
    Some (OpCompleteTask (lookup "tasklist_id" a) (lookup "task_id" a))
  else if String.eqb n "delete_task" then
    Some (OpDeleteTask (lookup "tasklist_id" a) (lookup "task_id" a))
  else if String.eqb n "move_task" then
    Some (OpMoveTask (lookup "tasklist_id" a) (lookup "task_id" a)
            (VObj [ ("parent", lookup "parent" a);
                    ("previous", lookup "previous" a) ]))
  else None.

(** The text of the single content item of an envelope. *)
Definition envelope_text (r : value) : value :=
  match r with
  | VObj fs =>
      match lookup "content" fs with
      | VArr [VObj item] => lookup "text" item
      | _ => VUndef
      end
  | _ => VUndef
  end.

(** The error [buildClient] throws when one of the two files is missing:
    the credentials file is looked for first. *)
Definition config_error (w : world) : error :=
  match creds_file w with
  | None => Error "Missing .credentials.json — run: node src/auth.js"
  | Some _ => Error "Missing .tokens.json — run: node src/auth.js"
  end.


(** A world whose remote service echoes inserts in that way, under a fresh
    id. *)
Definition echo_world : world :=
  mkWorld (creds_file demo_world) (tokens_file demo_world) (now demo_world)
    (fun _ _ rq =>
       match method rq, params rq with
       | TasksInsert, VObj ps =>
           match lookup "requestBody" ps with
           | VObj body =>
               Ok (VObj [ ("id", VStr "T2");
                          ("title", lookup "title" body);
                          ("notes", lookup "notes" body);
                          ("due", lookup "due" body);
                          ("status", lookup "status" body);
                          ("parent", lookup "parent" ps) ])
           | _ => Throw (Error "Bad Request")
           end
       | _, _ => Throw (Error "Not Found")
       end)
    [].

(** A world without the tokens file. *)
Definition unauthorized_world : world :=
  mkWorld (creds_file demo_world) None (now demo_world) (remote demo_world) [].

(** ** Further definitions: total reads, the method of an operation *)

(** [o.k] where the read is known not to throw; [undefined] otherwise. *)
Definition prop (o : value) (k : string) : value :=
  match get_prop o k with
  | Ok v => v
  | Throw _ => VUndef
  end.

Definition is_nullish (v : value) : bool :=
  match v with
  | VUndef | VNull => true
  | _ => false
  end.

(** The method of the remote service each operation calls. *)
Definition op_method (op : operation) : api_method :=
  match op with
  | OpListTaskLists => TasklistsList
  | OpListTasks _ _ => TasksList
  | OpGetTask _ _ => TasksGet
  | OpCreateTask _ _ => TasksInsert
  | OpUpdateTask _ _ _ | OpCompleteTask _ _ => TasksPatch
  | OpDeleteTask _ _ => TasksDelete
  | OpMoveTask _ _ _ => TasksMove
  end.

(** ** tasks-api.js: the [tokens] listener of [buildClient] *)

(** [writeFileSync(path, data)] accepts a string (no buffer is ever passed
    here) and throws a [TypeError] on anything else; the result is the
    text handed to the file system. *)
Definition writeFileSync_data (data : value) : result string :=
  match data with
  | VStr s => Ok s
  | _ =>
      Throw (TypeError
               ("The " ++ quote "data"
                  ++ " argument must be of type string or an instance of Buffer, TypedArray, or DataView."))
  end.

Definition index_key (i : nat) : string :=
  NilZero.string_of_uint (Nat.to_uint i).

Fixpoint indexed (i : nat) (xs : list value) : list (string * value) :=
  match xs with
  | [] => []
  | x :: rest => (index_key i, x) :: indexed (S i) rest
  end.

Fixpoint code_units (s : string) : list value :=
  match s with
  | EmptyString => []
  | String c rest => VStr (String c EmptyString) :: code_units rest
  end.

(** The own enumerable properties an object spread [{...v}] copies:
    those of an object, the indexed elements of an array or a string,
    nothing for the other primitives. *)
Definition own_properties (v : value) : list (string * value) :=
  match v with
  | VObj fs => fs
  | VArr xs => indexed 0 xs
  | VStr s => indexed 0 (code_units s)
  | VUndef | VNull | VBool _ | VNum _ => []
  end.

(** Copying the properties of [source] onto the fields built so far, in
    order, each by assignment. *)
Definition copy_properties (target : list (string * value)) (source : value)
  : list (string * value) :=
  fold_left (fun acc kv => set_field (fst kv) (snd kv) acc)
            (own_properties source) target.

(** [{ ...tokens, ...newTokens }] *)
Definition merge_tokens (tokens newTokens : value) : value :=
  VObj (copy_properties (copy_properties [] tokens) newTokens).

(** The listener [(newTokens) => { merged = ...; writeFileSync(TOKENS_PATH,
    JSON.stringify(merged, null, 2)) }]: the text it writes to the tokens
    file, or the error of [writeFileSync]. *)
Definition tokens_listener (tokens newTokens : value) : result string :=
  let merged := merge_tokens tokens newTokens in
  writeFileSync_data (JSON_stringify merged).

(** ** auth.js: the callback of the local server *)

(** What the callback does to the outside, in order.  [Exit status] is a
    call of [process.exit(status)]; [Rejected e] is the promise of the
    callback rejecting with [e], which nothing in the source handles. *)
Inductive event : Type :=
| ExchangeCode (code : value)
| WriteTokens (data : string)
| Respond (body : string)
| LogInfo (text : string)
| LogError (e : error)
| CloseServer
| Exit (status : Z)
| Rejected (e : error).

(** The [try] block after a successful exchange and write, and the [catch]
    block. *)
Definition on_success (code : value) (data : string) : list event :=
  [ ExchangeCode code;
    WriteTokens data;
    Respond "<h2>✅ Authorization successful! You can close this tab.</h2>";
    LogInfo (newline
               ++ "✅ Tokens saved to .tokens.json — MCP server is ready."
               ++ newline);
    CloseServer;
    Exit 0 ].

Definition on_failure (code : value) (err : error) : list event :=
  [ ExchangeCode code;
    Respond ("Error getting tokens: " ++ message err);
    LogError err;
    CloseServer;
    Exit 1 ].

(** What the [try] block does before it answers: the exchange, the
    destructuring of its answer, the serialization and the write.
    [write_error] is the error of the file system when writing the tokens
    file fails, [None] when it succeeds. *)
Definition exchange_and_write (code : value)
    (getToken : value -> result value) (write_error : option error)
  : result string :=
  let? answer := getToken code in
  let? tokens := get_prop answer "tokens" in
  let? data := writeFileSync_data (JSON_stringify tokens) in
  match write_error with
  | Some e => Throw e
  | None => Ok data
  end.

(** The request handler given to [createServer].  [url_code] is the
    outcome of its first two statements, [new URL(req.url, REDIRECT_URI)]
    and [url.searchParams.get("code")]: the code, a string or [null], or
    the [TypeError] [new URL] throws on a request target that does not
    parse.  Those statements stand before the [try]: their error rejects
    the promise of the callback before anything else is done.  [getToken]
    is [oauth2.getToken]. *)
Definition auth_callback (url_code : result value)
    (getToken : value -> result value) (write_error : option error)
  : list event :=
  match url_code with
  | Throw e => [Rejected e]
  | Ok code =>
      if negb (truthy code) then
        [Respond "No code received. Try again."]
      else
        match exchange_and_write code getToken write_error with
        | Ok data => on_success code data
        | Throw err => on_failure code err
        end
  end.

Definition is_respond (e : event) : bool :=
  match e with Respond _ => true | _ => false end.

Definition is_write (e : event) : bool :=
  match e with WriteTokens _ => true | _ => false end.

Definition is_exchange (e : event) : bool :=
  match e with ExchangeCode _ => true | _ => false end.

Definition is_exit (e : event) : bool :=
  match e with Exit _ => true | _ => false end.

(** The error of [new URL] on a request target that is no URL. *)
Definition invalid_url : error := TypeError "Invalid URL".

(** A world whose credentials file is not valid JSON. *)
Definition syntax_error : error :=
  mkError "SyntaxError" "Unexpected token } in JSON at position 1".

Definition garbled_world : world :=
  mkWorld (Some (Throw syntax_error)) (tokens_file demo_world)
    (now demo_world) (remote demo_world) [].

(** One step of an object spread: the assignment of one property. *)
Definition assign (acc : list (string * value)) (kv : string * value)
  : list (string * value) :=
  set_field (fst kv) (snd kv) acc.

(** The operations whose result is a list. *)
Definition returns_list (op : operation) : bool :=
  match op with
  | OpListTaskLists | OpListTasks _ _ => true
  | _ => false
  end.

(** The callback [listTaskLists] maps over the items. *)
Definition list_entry (l : value) : result value :=
  let? id := get_prop l "id" in
  let? title := get_prop l "title" in
  let? updated := get_prop l "updated" in
  Ok (VObj [("id", id); ("title", title); ("updated", updated)]).

(** The parameter object [listTasks] hands to [api.tasks.list]. *)
Definition list_request (tasklistId opts : value) : request :=
  let opts := default_param opts (VObj []) in
  mkRequest TasksList
    (VObj [ ("tasklist", default_param tasklistId (VStr "@default"));
            ("maxResults", VNum 100);
            ("showCompleted", js_nullish (prop opts "showCompleted") (VBool false));
            ("showHidden", js_nullish (prop opts "showHidden") (VBool false));
            ("dueMin", prop opts "dueMin");
            ("dueMax", prop opts "dueMax") ]).

(** A world whose remote service answers every call with an empty
    record. *)
Definition echo_empty_world : world :=
  mkWorld (creds_file demo_world) (tokens_file demo_world) (now demo_world)
    (fun _ _ _ => Ok (VObj [])) [].

(** The argument objects an operation reads can be read: the [task] of
    [createTask] and the [updates] of [updateTask] are not [null] or
    [undefined]; the [opts] of [listTasks] and [moveTask] are not [null]
    ([undefined] is replaced by the default [{}]). *)
Definition readable (op : operation) : bool :=
  match op with
  | OpCreateTask _ task => negb (is_nullish task)
  | OpUpdateTask _ _ updates => negb (is_nullish updates)
  | OpListTasks _ opts | OpMoveTask _ _ opts =>
      negb (is_nullish (default_param opts (VObj [])))
  | OpListTaskLists | OpGetTask _ _ | OpCompleteTask _ _
  | OpDeleteTask _ _ => true
  end.

(** * Properties *)

(** ** Normalization *)

Lemma js_or_stable (a d : value) :
  truthy d = false -> js_or (js_or a d) d = js_or a d.
Proof.
  intros Hd. unfold js_or.
  destruct (truthy a) eqn:Ha.
  - now rewrite Ha.
  - now rewrite Hd.
Qed.

Lemma formatTask_object (fields : list (string * value)) :
  formatTask (VObj fields) = Ok (VObj (formatted fields)).
Proof. reflexivity. Qed.

Lemma formatTask_inv (t r : value) :
  formatTask t = Ok r ->
  exists fields, r = VObj (formatted fields) /\
                 forall k, get_prop t k = Ok (lookup k fields).
Proof.
  destruct t; cbn; intros H; try discriminate; inversion H; subst.
  1-4: exists []; split; [reflexivity | intros k; reflexivity].
  exists fields. split; [reflexivity | intros k; reflexivity].
Qed.

(** ** The monad and [buildClient] *)

Lemma buildClient_pure (w w1 : world) (r : result client) :
  buildClient w = (r, w1) -> w1 = w.
Proof.
  unfold buildClient.
  destruct (creds_file w); [destruct (tokens_file w)|]; intros H;
    now inversion H.
Qed.

(** One step through a monadic body: split on the outcome of the next
    computation that the goal or the hypothesis is stuck on. *)
Ltac step_in H :=
  match type of H with
  | context [buildClient ?w] =>
      let r := fresh "api" in
      let e := fresh "e" in
      let w1 := fresh "w" in
      let Hb := fresh "Hb" in
      destruct (buildClient w) as [[r | e] w1] eqn:Hb;
      apply buildClient_pure in Hb as ?; subst w1
  | context [get_prop ?o ?k] =>
      let v := fresh "v" in
      let e := fresh "e" in
      let Hg := fresh "Hg" in
      destruct (get_prop o k) as [v | e] eqn:Hg
  | context [remote ?w ?a ?h ?rq] =>
      let v := fresh "raw" in
      let e := fresh "e" in
      let Hr := fresh "Hr" in
      destruct (remote w a h rq) as [v | e] eqn:Hr
  | context [strict_eq_str ?v ?s] =>
      let Hs := fresh "Hs" in
      destruct (strict_eq_str v s) eqn:Hs
  end; cbn in H; try discriminate H.

(** The last step of an operation that returns [formatTask(res.data)]. *)
Ltac finish_format H :=
  match type of H with
  | (formatTask ?raw, _) = _ =>
      let Hf := fresh "Hf" in
      destruct (formatTask raw) eqn:Hf; inversion H; subst; clear H
  end.

Ltac unfold_api :=
  unfold run, listTaskLists, listTasks, getTask, createTask, completeTask,
    updateTask, deleteTask, moveTask, current_time, bind, lift, ret, throw,
    call in *.

Lemma task_op_formatted (op : operation) (w w' : world) (r : value) :
  returns_task op = true ->
  run op w = (Ok r, w') ->
  exists api rq raw,
    buildClient w = (Ok api, w) /\ w' = log_call rq w /\
    remote w api (calls w) rq = Ok raw /\ formatTask raw = Ok r.
Proof.
  intros Hop H.
  destruct op; try discriminate Hop; clear Hop; unfold_api;
    cbn in H; repeat step_in H.
  all: finish_format H; eauto 10.
Qed.

Lemma map_result_Forall2 (f : value -> result value) (xs ys : list value) :
  map_result f xs = Ok ys -> Forall2 (fun x y => f x = Ok y) xs ys.
Proof.
  revert ys. induction xs as [| x xs IH]; intros ys H; cbn in H.
  - inversion H. constructor.
  - destruct (f x) eqn:Hx; cbn in H; try discriminate.
    destruct (map_result f xs) eqn:Hxs; cbn in H; try discriminate.
    inversion H; subst. constructor; auto.
Qed.

Lemma listTasks_formatted (l o : value) (w w' : world) (r : value) :
  listTasks l o w = (Ok r, w') ->
  exists api rq raw items rs,
    buildClient w = (Ok api, w) /\ w' = log_call rq w /\
    remote w api (calls w) rq = Ok raw /\
    get_prop raw "items" = Ok items /\
    r = VArr rs /\
    match js_or items (VArr []) with
    | VArr xs => Forall2 (fun x y => formatTask x = Ok y) xs rs
    | _ => False
    end.
Proof.
  intros H. unfold_api. cbn in H. repeat step_in H.
  unfold array_map in H.
  destruct (js_or v3 (VArr [])) eqn:Hitems; try discriminate H.
  destruct (map_result formatTask xs) as [rs | e] eqn:Hm; cbn in H;
    try discriminate H.
  inversion H; subst.
  exists api. eexists. exists raw, v3, rs.
  repeat split; try eassumption; try reflexivity.
  rewrite Hitems. now apply map_result_Forall2.
Qed.

Lemma keys_formatted (fields : list (string * value)) :
  keys (formatted fields) = (task_shape ++ ["selfLink"])%list.
Proof. reflexivity. Qed.

(** C5. Normalization is idempotent: whenever [formatTask t] returns a
    record, formatting that record again returns the very same record;
    [formatTask] throws only on [undefined] and [null]. *)
Theorem formatTask_idempotent (t : value) :
  match formatTask t with
  | Ok r => formatTask r = Ok r
  | Throw _ => t = VUndef \/ t = VNull
  end.
Proof.
  destruct t; cbn; auto.
  change (formatTask (VObj (formatted fields)) = Ok (VObj (formatted fields))).
  rewrite formatTask_object. unfold formatted. cbn -[js_or].
  rewrite !js_or_stable by reflexivity. reflexivity.
Qed.

(** C10. Every normalized task carries, after the nine documented fields, a
    tenth field [selfLink] copied from the raw record; this holds for what
    [formatTask] returns and so for the result of every operation that
    returns a task and for every element of the result of list. *)
Theorem formatTask_selfLink :
  length task_shape = 9 /\ ~ In "selfLink" task_shape /\
  (forall t r,
     formatTask t = Ok r ->
     exists fs,
       r = VObj fs /\ keys fs = (task_shape ++ ["selfLink"])%list /\
       get_prop t "selfLink" = Ok (lookup "selfLink" fs)) /\
  (forall op w r w',
     returns_task op = true ->
     run op w = (Ok r, w') ->
     exists fs,
       r = VObj fs /\ keys fs = (task_shape ++ ["selfLink"])%list) /\
  (forall l o w r w',
     listTasks l o w = (Ok r, w') ->
     exists rs,
       r = VArr rs /\
       Forall (fun y => exists fs,
                 y = VObj fs /\ keys fs = (task_shape ++ ["selfLink"])%list)
              rs).
Proof.
  assert (Hfmt : forall t r,
             formatTask t = Ok r ->
             exists fs,
               r = VObj fs /\ keys fs = (task_shape ++ ["selfLink"])%list /\
               get_prop t "selfLink" = Ok (lookup "selfLink" fs)).
  { intros t r H. apply formatTask_inv in H as (fields & -> & Hget).
    exists (formatted fields). split; [reflexivity |].
    split; [apply keys_formatted |]. rewrite Hget. reflexivity. }
  split; [reflexivity |]. split.
  { cbn. intros H.
    repeat (destruct H as [H | H]; [discriminate H |]). exact H. }
  split; [exact Hfmt |]. split.
  - intros op w r w' Hop H.
    apply (task_op_formatted _ _ _ _ Hop) in H
      as (api & rq & raw & _ & _ & _ & Hf).
    apply Hfmt in Hf as (fs & -> & Hk & _). eauto.
  - intros l o w r w' H.
    apply listTasks_formatted in H
      as (api & rq & raw & items & rs & _ & _ & _ & _ & -> & Hall).
    exists rs. split; [reflexivity |].
    destruct (js_or items (VArr [])); try contradiction.
    induction Hall as [| x y xs ys Hxy _ IH]; constructor; auto.
    apply Hfmt in Hxy as (fs & -> & Hk & _). eauto.
Qed.

Lemma formatTask_selfLink_witness :
  exists fs,
    formatTask (VObj [("id", VStr "T1"); ("selfLink", VStr "https://t/1")])
    = Ok (VObj fs) /\
    keys fs = (task_shape ++ ["selfLink"])%list /\
    lookup "selfLink" fs = VStr "https://t/1".
Proof.
  destruct formatTask_selfLink as (_ & _ & Hfmt & _).
  destruct (Hfmt (VObj [("id", VStr "T1"); ("selfLink", VStr "https://t/1")])
              _ eq_refl) as (fs & Hr & Hk & Hs).
  exists fs. split; [rewrite <- Hr; reflexivity |]. split; [exact Hk |].
  cbn in Hs. now inversion Hs.
Defined.

(** ** The registry *)

Lemma NoDup_tool_names : NoDup (map name TOOLS).
Proof.
  cbn. repeat constructor; cbn; intros H;
    repeat (destruct H as [H | H]; [discriminate H |]); exact H.
Qed.

(** C3. [listTools] returns the eight descriptors of [TOOLS], whatever the
    state of the world and without changing it; their names are the eight
    tool names, each once; for every tool the required parameters and the
    remaining (optional) parameters of its [inputSchema] are those of the
    table of section 6, with the defaults and the enumeration given there;
    every required parameter is one of the declared properties. *)
Theorem listTools_registry :
  (forall w, listTools w = (Ok (mkToolsResult TOOLS), w)) /\
  length TOOLS = 8 /\
  map name TOOLS = map (fun row => fst (fst row)) spec_table /\
  NoDup (map name TOOLS) /\
  map table_row TOOLS = spec_table /\
  flat_map declared_defaults TOOLS = spec_defaults /\
  flat_map declared_enums TOOLS = spec_enums /\
  Forall (fun t =>
            forallb (fun k => mem k (param_names (inputSchema t)))
                    (required (inputSchema t)) = true)
         TOOLS.
Proof.
  split; [reflexivity |].
  split; [reflexivity |].
  split; [reflexivity |].
  split; [exact NoDup_tool_names |].
  split; [reflexivity |].
  split; [reflexivity |].
  split; [reflexivity |].
  repeat constructor.
Qed.

(** ** The dispatcher *)

Lemma dispatch_route (n : string) (a : list (string * value)) :
  dispatch n (VObj a)
  = match route n a with
    | Some op => run op
    | None => throw (Error ("Unknown tool: " ++ n))
    end.
Proof.
  unfold dispatch, route.
  repeat match goal with
         | |- context [String.eqb n ?s] => destruct (String.eqb n s)
         end; reflexivity.
Qed.

Lemma is_tool_cases (n : string) :
  is_tool n = true ->
  In n [ "list_task_lists"; "list_tasks"; "get_task"; "create_task";
         "update_task"; "complete_task"; "delete_task"; "move_task" ].
Proof.
  unfold is_tool. rewrite existsb_exists.
  intros (x & Hx & Heq). apply String.eqb_eq in Heq. now subst.
Qed.

Lemma is_tool_false (n : string) :
  is_tool n = false ->
  dispatch n = fun _ => throw (Error ("Unknown tool: " ++ n)).
Proof.
  unfold is_tool. cbn. intros H.
  repeat (apply orb_false_elim in H; destruct H as [?H H]).
  unfold dispatch.
  repeat match goal with
         | Hn : String.eqb n ?s = false |- _ => rewrite Hn; clear Hn
         end.
  reflexivity.
Qed.

Lemma route_is_tool (n : string) (a : list (string * value)) :
  is_tool n = true -> exists op, route n a = Some op.
Proof.
  intros H. apply is_tool_cases in H. cbn in H.
  repeat (destruct H as [<- | H]; [eexists; reflexivity |]).
  contradiction.
Qed.

Lemma callTool_unfold (n : string) (args : value) (w : world) :
  callTool n args w
  = match dispatch n args w with
    | (Ok r, w') => (Ok (success_envelope r), w')
    | (Throw e, w') => (Ok (error_envelope e), w')
    end.
Proof.
  unfold callTool, try_catch, bind, ret.
  destruct (dispatch n args w) as [[r | e] w']; reflexivity.
Qed.

Lemma dispatch_inv (n : string) (args : value) (w w' : world) (r : value) :
  dispatch n args w = (Ok r, w') -> exists op, run op w = (Ok r, w').
Proof.
  intros H.
  assert (Hobj : forall a, dispatch n (VObj a) w = (Ok r, w') ->
                           exists op, run op w = (Ok r, w')).
  { intros a Ha. rewrite dispatch_route in Ha.
    destruct (route n a) as [op |]; [eauto | discriminate Ha]. }
  destruct args as [| | b | z | s | xs | a].
  3-6: apply (Hobj []); exact H.
  3: apply (Hobj a); exact H.
  all: unfold dispatch in H;
    repeat match type of H with
           | context [String.eqb ?m ?s] => destruct (String.eqb m s)
           end;
    try discriminate H;
    exists OpListTaskLists; exact H.
Qed.

Lemma serialize_array (ind : string) (xs : list value) :
  exists s, serialize ind (VArr xs) = Some s.
Proof. cbn. destruct (map _ xs); eauto. Qed.

Lemma serialize_object (ind : string) (fs : list (string * value)) :
  exists s, serialize ind (VObj fs) = Some s.
Proof. cbn. destruct (flat_map _ fs); eauto. Qed.

(** What a data operation returns is an array or an object, so
    [JSON.stringify] of it is a string, never [undefined]. *)
Lemma run_result_serializes (op : operation) (w w' : world) (r : value) :
  run op w = (Ok r, w') -> exists s, JSON_stringify r = VStr s.
Proof.
  intros H. unfold JSON_stringify.
  assert (Harr : forall xs, exists s,
               match serialize "" (VArr xs) with
               | Some s0 => VStr s0 | None => VUndef end = VStr s).
  { intros xs. destruct (serialize_array "" xs) as (s & ->). eauto. }
  assert (Hob : forall fs, exists s,
               match serialize "" (VObj fs) with
               | Some s0 => VStr s0 | None => VUndef end = VStr s).
  { intros fs. destruct (serialize_object "" fs) as (s & ->). eauto. }
  destruct (returns_task op) eqn:Hop.
  - apply (task_op_formatted _ _ _ _ Hop) in H
      as (api & rq & raw & _ & _ & _ & Hf).
    apply formatTask_inv in Hf as (fields & -> & _). apply Hob.
  - destruct op; try discriminate Hop.
    + (* listTaskLists *)
      unfold_api. cbn in H. repeat step_in H.
      unfold array_map in H.
      destruct (js_or _ _); try discriminate H.
      destruct (map_result _ xs); cbn in H; try discriminate H.
      inversion H; subst. apply Harr.
    + (* listTasks *)
      apply listTasks_formatted in H
        as (api & rq & raw & items & rs & _ & _ & _ & _ & -> & _).
      apply Harr.
    + (* deleteTask *)
      unfold_api. cbn in H. repeat step_in H.
      inversion H; subst. apply Hob.
Qed.

(** C1. A tool call never throws: [callTool] always returns an envelope.
    Whenever the body of the [try] throws an error [e] -- the handler the
    call was routed to threw it, reading the arguments threw it, or the name
    is none of the eight tools and the [default] branch threw
    [Unknown tool: <name>] -- the envelope returned has [isError] true and
    its text is [Error: ] followed by the message of [e]. *)
Theorem callTool_catches (n : string) (args : value) (w : world) :
  (exists r w', callTool n args w = (Ok r, w')) /\
  (forall e w',
     dispatch n args w = (Throw e, w') ->
     callTool n args w = (Ok (error_envelope e), w')) /\
  (forall a op e w',
     args = VObj a -> route n a = Some op -> run op w = (Throw e, w') ->
     callTool n args w = (Ok (error_envelope e), w')) /\
  (is_tool n = false ->
   callTool n args w
   = (Ok (error_envelope (Error ("Unknown tool: " ++ n))), w)) /\
  (forall e,
     get_prop (error_envelope e) "isError" = Ok (VBool true) /\
     envelope_text (error_envelope e) = VStr ("Error: " ++ message e)).
Proof.
  repeat split.
  - rewrite callTool_unfold.
    destruct (dispatch n args w) as [[r | e] w']; eauto.
  - intros e w' H. rewrite callTool_unfold, H. reflexivity.
  - intros a op e w' -> Hr H.
    rewrite callTool_unfold, dispatch_route, Hr, H. reflexivity.
  - intros H. rewrite callTool_unfold, (is_tool_false _ H). reflexivity.
Qed.

Lemma callTool_catches_witness :
  callTool "unknown_tool_xyz" (VObj []) demo_world
  = (Ok (VObj [ ("content",
                 VArr [VObj [ ("type", VStr "text");
                              ("text",
                               VStr "Error: Unknown tool: unknown_tool_xyz") ]]);
                ("isError", VBool true) ]),
     demo_world) /\
  callTool "get_task" VUndef demo_world
  = (Ok (error_envelope
           (TypeError
              "Cannot read properties of undefined (reading 'tasklist_id')")),
     demo_world).
Proof.
  split.
  - apply (callTool_catches "unknown_tool_xyz" (VObj []) demo_world).
    reflexivity.
  - apply (callTool_catches "get_task" VUndef demo_world). reflexivity.
Defined.

(** C2, counterexample.  With both local files present and the remote
    service answering, the handler of [list_task_lists] succeeds and the
    envelope returned has the single property [content]: reading [isError]
    gives [undefined], not [false]. *)
Lemma callTool_success_isError_counterexample :
  exists res r w',
    dispatch "list_task_lists" (VObj []) demo_world = (Ok res, w') /\
    callTool "list_task_lists" (VObj []) demo_world = (Ok r, w') /\
    envelope_text r = JSON_stringify res /\
    get_prop r "isError" = Ok VUndef /\
    get_prop r "isError" <> Ok (VBool false).
Proof.
  do 3 eexists. split; [reflexivity |]. split; [reflexivity |].
  split; [reflexivity |]. split; [reflexivity | discriminate].
Qed.

(** C2, as amended.  Whenever the handler of a tool call succeeds with a
    result, [callTool] returns the envelope whose only property is
    [content], a one-element array holding a text item whose text is
    [JSON.stringify(result, null, 2)], which is a string; the envelope has no
    [isError] property (reading it gives [undefined]). *)
Theorem callTool_success (n : string) (args : value) (w w' : world)
    (res : value) :
  dispatch n args w = (Ok res, w') ->
  callTool n args w
  = (Ok (VObj [("content",
                VArr [VObj [ ("type", VStr "text");
                             ("text", JSON_stringify res) ]])]),
     w') /\
  (exists s, JSON_stringify res = VStr s) /\
  envelope_text (success_envelope res) = JSON_stringify res /\
  get_prop (success_envelope res) "isError" = Ok VUndef.
Proof.
  intros H. split; [| split; [| repeat split]].
  - rewrite callTool_unfold, H. reflexivity.
  - apply dispatch_inv in H as (op & Hop).
    now apply run_result_serializes in Hop.
Qed.

Lemma callTool_success_witness :
  callTool "delete_task"
    (VObj [("tasklist_id", VStr "L"); ("task_id", VStr "T1")]) demo_world
  = (Ok (VObj [("content",
                VArr [VObj [ ("type", VStr "text");
                             ("text",
                              JSON_stringify
                                (VObj [ ("deleted", VBool true);
                                        ("taskId", VStr "T1") ])) ]])]),
     log_call (mkRequest TasksDelete
                 (VObj [("tasklist", VStr "L"); ("task", VStr "T1")]))
       demo_world).
Proof.
  apply (callTool_success "delete_task"
           (VObj [("tasklist_id", VStr "L"); ("task_id", VStr "T1")])
           demo_world).
  reflexivity.
Defined.

(** ** Missing local authorization material *)

Lemma buildClient_missing (w : world) :
  creds_file w = None \/ tokens_file w = None ->
  buildClient w = (Throw (config_error w), w).
Proof.
  unfold buildClient, config_error.
  intros [H | H]; rewrite H; [reflexivity |].
  destruct (creds_file w); reflexivity.
Qed.

Lemma run_missing (op : operation) (w : world) :
  creds_file w = None \/ tokens_file w = None ->
  run op w = (Throw (config_error w), w).
Proof.
  intros H. apply buildClient_missing in H.
  destruct op; unfold_api; cbn; rewrite H; reflexivity.
Qed.

(** C9. When the credentials file or the tokens file is absent, each of the
    eight data operations throws the [Missing ...] error of [buildClient]
    and leaves the world, hence the log of remote calls, as it was; a call
    of any of the eight tools then returns an envelope with [isError] true
    and no remote call made, and on an argument object the text of the
    envelope is that [Missing ...] message. *)
Theorem missing_auth_fails_fast (w : world) :
  creds_file w = None \/ tokens_file w = None ->
  (forall op,
     run op w = (Throw (config_error w), w) /\
     calls (snd (run op w)) = calls w) /\
  (forall n args,
     is_tool n = true ->
     exists e,
       callTool n args w = (Ok (error_envelope e), w) /\
       get_prop (error_envelope e) "isError" = Ok (VBool true)) /\
  (forall n a,
     is_tool n = true ->
     callTool n (VObj a) w = (Ok (error_envelope (config_error w)), w)) /\
  (message (config_error w)
   = "Missing .credentials.json — run: node src/auth.js" \/
   message (config_error w)
   = "Missing .tokens.json — run: node src/auth.js").
Proof.
  intros Hmiss.
  assert (Hobj : forall n a,
             is_tool n = true ->
             callTool n (VObj a) w
             = (Ok (error_envelope (config_error w)), w)).
  { intros n a Hn. rewrite callTool_unfold, dispatch_route.
    destruct (route_is_tool n a Hn) as (op & ->).
    now rewrite run_missing. }
  split; [| split; [| split]].
  - intros op. rewrite run_missing by assumption. split; reflexivity.
  - intros n args Hn.
    destruct args as [| | b | z | s | xs | a].
    3-6: exists (config_error w); split; [exact (Hobj n [] Hn) | reflexivity].
    3: exists (config_error w); split; [exact (Hobj n a Hn) | reflexivity].
    all: apply is_tool_cases in Hn; cbn in Hn;
      destruct Hn as [<- | Hn];
      [ exists (config_error w); split; [| reflexivity];
        rewrite callTool_unfold;
        change (dispatch "list_task_lists" _) with (run OpListTaskLists);
        now rewrite run_missing
      | repeat (destruct Hn as [<- | Hn];
                [eexists; split; reflexivity |]);
        contradiction ].
  - exact Hobj.
  - unfold config_error. destruct (creds_file w); auto.
Qed.

Lemma missing_auth_fails_fast_witness :
  callTool "list_tasks" (VObj []) unauthorized_world
  = (Ok (VObj [ ("content",
                 VArr [VObj [ ("type", VStr "text");
                              ("text",
                               VStr "Error: Missing .tokens.json — run: node src/auth.js") ]]);
                ("isError", VBool true) ]),
     unauthorized_world) /\
  calls (snd (run (OpGetTask (VStr "L") (VStr "T")) unauthorized_world)) = [].
Proof.
  destruct (missing_auth_fails_fast unauthorized_world (or_intror eq_refl))
    as (Hop & _ & Hcall & _).
  split.
  - apply (Hcall "list_tasks" []). reflexivity.
  - apply Hop.
Defined.

(** ** complete_task and update_task *)

(** C6. [completeTask] is [updateTask] with the updates [{status:
    "completed"}]: the same outcome and the same world afterwards, so the
    same request to the remote service and the same normalized result.  At
    the tool level, [complete_task] on an argument object and [update_task]
    on an argument object with the same ids, status ["completed"] and no
    title, notes or due return the same envelope and leave the same world;
    with the local files in place the one request is a patch whose body is
    [{status: "completed", completed: <now>}]. *)
Theorem completeTask_is_update (l t : value) (w : world) :
  completeTask l t w
  = updateTask l t (VObj [("status", VStr "completed")]) w /\
  (forall a a',
     lookup "tasklist_id" a = l -> lookup "task_id" a = t ->
     lookup "tasklist_id" a' = l -> lookup "task_id" a' = t ->
     lookup "title" a' = VUndef -> lookup "notes" a' = VUndef ->
     lookup "due" a' = VUndef -> lookup "status" a' = VStr "completed" ->
     callTool "complete_task" (VObj a) w
     = callTool "update_task" (VObj a') w) /\
  (forall api,
     buildClient w = (Ok api, w) ->
     snd (completeTask l t w)
     = log_call
         (mkRequest TasksPatch
            (VObj [ ("tasklist", l); ("task", t);
                    ("requestBody",
                     VObj [ ("status", VStr "completed");
                            ("completed", VStr (now w)) ]) ]))
         w).
Proof.
  split; [reflexivity |]. split.
  - intros a a' Hl Ht Hl' Ht' Htitle Hnotes Hdue Hstatus.
    rewrite !callTool_unfold, !dispatch_route. cbn.
    rewrite Hl, Ht, Hl', Ht', Htitle, Hnotes, Hdue, Hstatus.
    reflexivity.
  - intros api Hb. unfold_api. cbn. rewrite Hb. cbn.
    destruct (remote w api (calls w) _); reflexivity.
Qed.

Lemma completeTask_is_update_witness :
  callTool "complete_task"
    (VObj [("tasklist_id", VStr "L"); ("task_id", VStr "T1")]) demo_world
  = callTool "update_task"
      (VObj [ ("tasklist_id", VStr "L"); ("task_id", VStr "T1");
              ("status", VStr "completed") ]) demo_world /\
  calls (snd (completeTask (VStr "L") (VStr "T1") demo_world))
  = [ mkRequest TasksPatch
        (VObj [ ("tasklist", VStr "L"); ("task", VStr "T1");
                ("requestBody",
                 VObj [ ("status", VStr "completed");
                        ("completed", VStr "2026-03-01T00:00:00.000Z") ]) ]) ].
Proof.
  destruct (completeTask_is_update (VStr "L") (VStr "T1") demo_world)
    as (_ & Htool & Hreq).
  split.
  - apply Htool; reflexivity.
  - rewrite (Hreq demo_client eq_refl). reflexivity.
Defined.

(** ** update_task *)

Lemma is_undefined_true (v : value) : is_undefined v = true -> v = VUndef.
Proof. destruct v; cbn; congruence. Qed.

Lemma strict_eq_str_defined (v : value) (s : string) :
  strict_eq_str v s = true -> is_undefined v = false.
Proof. destruct v; cbn; congruence. Qed.

Lemma has_key_In (k : string) (fs : list (string * value)) :
  has_key k fs = true -> In k (keys fs).
Proof.
  induction fs as [| [k' v] fs IH]; cbn; [discriminate |].
  intros H. apply orb_true_iff in H as [H | H].
  - left. apply String.eqb_eq in H. congruence.
  - right. now apply IH.
Qed.

(** The body [updateTask] sends, field by field. *)
Lemma update_body_fields (a b c d tm : value) :
  let body := update_body a b c d tm in
  (has_key "title" body = negb (is_undefined a) /\ lookup "title" body = a) /\
  (has_key "notes" body = negb (is_undefined b) /\ lookup "notes" body = b) /\
  (has_key "due" body = negb (is_undefined c) /\ lookup "due" body = c) /\
  (has_key "status" body = negb (is_undefined d) /\
   lookup "status" body = d) /\
  has_key "completed" body = strict_eq_str d "completed" /\
  (strict_eq_str d "completed" = true -> lookup "completed" body = tm) /\
  incl (keys body) ["title"; "notes"; "due"; "status"; "completed"].
Proof.
  unfold update_body.
  destruct (is_undefined a) eqn:Ha; destruct (is_undefined b) eqn:Hb;
    destruct (is_undefined c) eqn:Hc;
    try (apply is_undefined_true in Ha; subst a);
    try (apply is_undefined_true in Hb; subst b);
    try (apply is_undefined_true in Hc; subst c);
    destruct d as [| | ? | ? | s | ? | ?]; cbn;
    try destruct (String.eqb s "completed"); cbn;
    repeat split; try discriminate;
    try (intros k Hk; cbn in *; tauto).
Qed.

(** C7. With the local files in place, [updateTask] issues one patch whose
    request body holds each of [title], [notes], [due], [status] exactly
    when the updates define it (its value is not [undefined]), with the
    value given; holds [completed], set to the current time, exactly when
    the status given is ["completed"]; and holds no other field. *)
Theorem updateTask_partial (l t : value) (u : list (string * value))
    (w : world) (api : client) :
  buildClient w = (Ok api, w) ->
  exists body,
    snd (updateTask l t (VObj u) w)
    = log_call
        (mkRequest TasksPatch
           (VObj [ ("tasklist", l); ("task", t);
                   ("requestBody", VObj body) ]))
        w /\
    (forall k, In k ["title"; "notes"; "due"; "status"] ->
               has_key k body = negb (is_undefined (lookup k u)) /\
               lookup k body = lookup k u) /\
    has_key "completed" body = strict_eq_str (lookup "status" u) "completed" /\
    (strict_eq_str (lookup "status" u) "completed" = true ->
     lookup "completed" body = VStr (now w)) /\
    (forall k, has_key k body = true ->
               In k ["title"; "notes"; "due"; "status"; "completed"]).
Proof.
  intros Hb.
  set (tm := if strict_eq_str (lookup "status" u) "completed"
             then VStr (now w) else VUndef).
  exists (update_body (lookup "title" u) (lookup "notes" u) (lookup "due" u)
            (lookup "status" u) tm).
  destruct (update_body_fields (lookup "title" u) (lookup "notes" u)
              (lookup "due" u) (lookup "status" u) tm)
    as (Ht & Hn & Hd & Hs & Hc & Hcv & Hincl).
  split; [| split; [| split; [| split]]].
  - unfold_api. cbn. rewrite Hb. cbn. subst tm.
    destruct (strict_eq_str (lookup "status" u) "completed"); cbn;
      destruct (remote w api (calls w) _); reflexivity.
  - intros k Hk. cbn in Hk.
    repeat (destruct Hk as [<- | Hk]; [assumption |]). contradiction.
  - exact Hc.
  - intros Hcompleted. rewrite (Hcv Hcompleted). subst tm.
    now rewrite Hcompleted.
  - intros k Hk. apply Hincl. now apply has_key_In.
Qed.

Lemma updateTask_partial_witness :
  exists body,
    snd (updateTask (VStr "L") (VStr "T1")
           (VObj [ ("title", VUndef); ("notes", VStr "call back");
                   ("due", VUndef); ("status", VStr "completed") ])
           demo_world)
    = log_call
        (mkRequest TasksPatch
           (VObj [ ("tasklist", VStr "L"); ("task", VStr "T1");
                   ("requestBody", VObj body) ]))
        demo_world /\
    has_key "title" body = false /\ lookup "notes" body = VStr "call back" /\
    lookup "completed" body = VStr "2026-03-01T00:00:00.000Z".
Proof.
  destruct (updateTask_partial (VStr "L") (VStr "T1")
              [ ("title", VUndef); ("notes", VStr "call back");
                ("due", VUndef); ("status", VStr "completed") ]
              demo_world demo_client eq_refl)
    as (body & Hreq & Hfields & _ & Hcompleted & _).
  exists body. split; [exact Hreq |]. split; [| split].
  - apply (Hfields "title"). cbn. auto.
  - apply (Hfields "notes"). cbn. auto.
  - apply Hcompleted. reflexivity.
Defined.

(** ** create_task *)





(** * Further properties of the wrapper and the dispatcher *)

(** ** One remote call at most *)

(** Close a leaf of the case analysis of an operation: it threw before any
    call, or it made its one call. *)
Ltac close_leaf H :=
  inversion H; subst; clear H;
  first
    [ left; eexists; reflexivity
    | right; do 2 eexists;
      split; [reflexivity |];
      split; [reflexivity |];
      split; [reflexivity |];
      intros ? ?; congruence ].

(** X1. An operation either throws with the world untouched, before any
    remote call, or it makes exactly one call, of the method of that
    operation, and changes nothing else; when the remote service rejects
    that call, the operation throws the very error of the rejection and
    makes no further call. *)
Theorem run_single_shot (op : operation) (w : world) :
  (exists e, run op w = (Throw e, w)) \/
  (exists api rq,
     buildClient w = (Ok api, w) /\
     snd (run op w) = log_call rq w /\
     method rq = op_method op /\
     forall e, remote w api (calls w) rq = Throw e ->
               run op w = (Throw e, log_call rq w)).
Proof.
  destruct (run op w) as [r w'] eqn:H.
  destruct op; unfold_api; cbn in H; repeat step_in H; close_leaf H.
Qed.

(** Split on whatever the hypothesis is still stuck on. *)
Ltac step_any H :=
  first
    [ step_in H
    | match type of H with
      | context [match ?x with _ => _ end] => destruct x eqn:?; cbn in H
      end ].

Ltac close_tool_leaf H :=
  inversion H; subst; clear H;
  do 2 eexists;
  split; [reflexivity |];
  split; [reflexivity |];
  split; [reflexivity |];
  intros ? ?; congruence.

(** X2. With the local files in place, a call of any of the eight tools on
    an argument object makes exactly one remote call, of the method of the
    operation the tool is routed to, whatever the argument object holds:
    no parameter is checked locally.  When the remote service rejects the
    call, the envelope returned is the error envelope of that rejection. *)
Theorem tool_call_one_request (n : string) (a : list (string * value))
    (w : world) (api : client) :
  buildClient w = (Ok api, w) ->
  is_tool n = true ->
  exists op rq,
    route n a = Some op /\
    snd (callTool n (VObj a) w) = log_call rq w /\
    method rq = op_method op /\
    forall e, remote w api (calls w) rq = Throw e ->
              callTool n (VObj a) w = (Ok (error_envelope e), log_call rq w).
Proof.
  intros Hb Hn. apply is_tool_cases in Hn. cbn in Hn.
  destruct (callTool n (VObj a) w) as [r w'] eqn:H.
  rewrite callTool_unfold, dispatch_route in H.
  repeat (destruct Hn as [<- | Hn];
          [ cbn in H; unfold_api; cbn in H; rewrite Hb in H; cbn in H;
            repeat step_any H; close_tool_leaf H
          | ]).
  contradiction.
Qed.

Lemma tool_call_one_request_witness :
  exists rq,
    snd (callTool "get_task" (VObj []) demo_world) = log_call rq demo_world /\
    method rq = TasksGet /\
    params rq = VObj [("tasklist", VUndef); ("task", VUndef)].
Proof.
  destruct (tool_call_one_request "get_task" [] demo_world demo_client
              eq_refl eq_refl) as (op & rq & Hop & Hlog & Hm & _).
  exists rq. split; [exact Hlog |].
  cbn in Hop. inversion Hop; subst op. split; [exact Hm |].
  apply (f_equal calls) in Hlog. cbn in Hlog.
  inversion Hlog. reflexivity.
Defined.

(** ** Configuration *)

Lemma get_prop_prop (o : value) (k : string) :
  is_nullish o = false -> get_prop o k = Ok (prop o k).
Proof. unfold prop. destruct o; cbn; congruence. Qed.

Lemma get_prop_nullish (o : value) (k : string) :
  is_nullish o = true ->
  exists e, get_prop o k = Throw e /\ err_name e = "TypeError".
Proof. destruct o; cbn; try discriminate; eauto. Qed.

(** X3. [buildClient] succeeds exactly when both local files exist, both
    parse, the parsed credentials are an object or another non-null value,
    and the section [creds.installed || creds.web] is neither [undefined]
    nor [null]; the client then carries the [client_id] and
    [client_secret] of that section ([installed] when it is truthy, [web]
    otherwise) and the parsed tokens. *)
Theorem buildClient_succeeds_iff (w : world) (api : client) :
  buildClient w = (Ok api, w) <->
  exists c t,
    creds_file w = Some (Ok c) /\ tokens_file w = Some (Ok t) /\
    is_nullish c = false /\
    is_nullish (js_or (prop c "installed") (prop c "web")) = false /\
    api = mkClient
            (prop (js_or (prop c "installed") (prop c "web")) "client_id")
            (prop (js_or (prop c "installed") (prop c "web")) "client_secret")
            t.
Proof.
  unfold buildClient. split.
  - destruct (creds_file w) as [[c | e] |];
      [| destruct (tokens_file w); discriminate | discriminate].
    destruct (tokens_file w) as [[t | e] |]; cbn.
    + intros H. exists c, t.
      destruct (is_nullish c) eqn:Hc.
      { destruct (get_prop_nullish c "installed" Hc) as (e & He & _).
        rewrite He in H. discriminate H. }
      rewrite !(get_prop_prop c) in H by assumption. cbn in H.
      destruct (is_nullish (js_or (prop c "installed") (prop c "web")))
        eqn:Hs.
      { destruct (get_prop_nullish _ "client_id" Hs) as (e & He & _).
        rewrite He in H. discriminate H. }
      rewrite !(get_prop_prop (js_or _ _)) in H by assumption. cbn in H.
      inversion H. auto.
    + intros H.
      destruct (get_prop c "installed"); cbn in H; try discriminate H.
      destruct (get_prop c "web"); cbn in H; try discriminate H.
      destruct (get_prop _ "client_id"); cbn in H; try discriminate H.
      destruct (get_prop _ "client_secret"); cbn in H; discriminate H.
    + discriminate.
  - intros (c & t & -> & -> & Hc & Hs & ->). cbn.
    rewrite !(get_prop_prop c) by assumption. cbn.
    rewrite !(get_prop_prop (js_or _ _)) by assumption. reflexivity.
Qed.

(** X4. Whatever makes [buildClient] fail -- a missing file, a file that
    does not parse, credentials without a usable section -- every one of the
    eight operations throws that same error with the world untouched, so
    without any remote call, and every tool called on an argument object
    returns the error envelope of that error. *)
Theorem configuration_failure_fails_fast (w : world) (e : error) :
  buildClient w = (Throw e, w) ->
  (forall op, run op w = (Throw e, w)) /\
  (forall n a,
     is_tool n = true ->
     callTool n (VObj a) w = (Ok (error_envelope e), w)).
Proof.
  intros Hb.
  assert (Hop : forall op, run op w = (Throw e, w)).
  { intros op. destruct op; unfold_api; cbn; rewrite Hb; reflexivity. }
  split; [exact Hop |].
  intros n a Hn. rewrite callTool_unfold, dispatch_route.
  destruct (route_is_tool n a Hn) as (op & ->). now rewrite Hop.
Qed.

Lemma configuration_failure_fails_fast_witness :
  callTool "list_tasks" (VObj []) garbled_world
  = (Ok (error_envelope syntax_error), garbled_world).
Proof.
  apply (configuration_failure_fails_fast garbled_world syntax_error);
    reflexivity.
Defined.

(** X5. The errors [buildClient] can throw: the [Missing ...] error of a
    missing file, the error of parsing the credentials file, the error of
    parsing the tokens file, or a [TypeError] for credentials that parse
    but hold no usable section.  A missing tokens file is reported before
    the credentials file is parsed. *)
Theorem buildClient_errors (w : world) (e : error) :
  buildClient w = (Throw e, w) ->
  ((creds_file w = None \/ tokens_file w = None) /\ e = config_error w) \/
  (creds_file w = Some (Throw e) /\ tokens_file w <> None) \/
  (tokens_file w = Some (Throw e) /\ exists c, creds_file w = Some (Ok c)) \/
  (err_name e = "TypeError" /\ exists c, creds_file w = Some (Ok c)).
Proof.
  unfold buildClient, config_error.
  destruct (creds_file w) as [[c | ec] |].
  - destruct (tokens_file w) as [[t | et] |]; cbn.
    + intros H. right. right. right. split; [| eauto].
      destruct (is_nullish c) eqn:Hc.
      { destruct (get_prop_nullish c "installed" Hc) as (e' & He & Hn).
        rewrite He in H. cbn in H. congruence. }
      rewrite !(get_prop_prop c) in H by assumption. cbn in H.
      destruct (is_nullish (js_or (prop c "installed") (prop c "web")))
        eqn:Hs.
      { destruct (get_prop_nullish _ "client_id" Hs) as (e' & He & Hn).
        rewrite He in H. cbn in H. congruence. }
      rewrite !(get_prop_prop (js_or _ _)) in H by assumption. cbn in H.
      discriminate H.
    + intros H.
      destruct (is_nullish c) eqn:Hc.
      { destruct (get_prop_nullish c "installed" Hc) as (e' & He & Hn).
        rewrite He in H. cbn in H. right. right. right.
        split; [congruence | eauto]. }
      rewrite !(get_prop_prop c) in H by assumption. cbn in H.
      destruct (is_nullish (js_or (prop c "installed") (prop c "web")))
        eqn:Hs.
      { destruct (get_prop_nullish _ "client_id" Hs) as (e' & He & Hn).
        rewrite He in H. cbn in H. right. right. right.
        split; [congruence | eauto]. }
      rewrite !(get_prop_prop (js_or _ _)) in H by assumption. cbn in H.
      right. right. left. split; [congruence | eauto].
    + intros H. left. split; [auto | congruence].
  - destruct (tokens_file w) as [pt |]; cbn.
    + intros H. right. left. split; congruence.
    + intros H. left. split; [auto | congruence].
  - intros H. left. split; [auto | congruence].
Qed.

Lemma buildClient_errors_witness :
  creds_file garbled_world = Some (Throw syntax_error) /\
  tokens_file garbled_world <> None.
Proof.
  destruct (buildClient_errors garbled_world syntax_error eq_refl)
    as [[[H | H] _] | [H | [[H _] | [H _]]]];
    try discriminate H.
  exact H.
Defined.

Lemma buildClient_succeeds_iff_witness :
  buildClient echo_world = (Ok demo_client, echo_world).
Proof.
  apply (buildClient_succeeds_iff echo_world demo_client).
  do 2 eexists. repeat split; reflexivity.
Defined.

(** ** Assignment and spread on objects *)

Lemma lookup_set_field_same (k : string) (v : value)
    (fs : list (string * value)) :
  lookup k (set_field k v fs) = v.
Proof.
  induction fs as [| [k' v'] fs IH]; cbn.
  - now rewrite String.eqb_refl.
  - destruct (String.eqb k k') eqn:E; cbn; rewrite ?String.eqb_refl, ?E; auto.
Qed.

Lemma lookup_set_field_other (k k' : string) (v : value)
    (fs : list (string * value)) :
  k <> k' -> lookup k (set_field k' v fs) = lookup k fs.
Proof.
  intros Hne. apply String.eqb_neq in Hne.
  induction fs as [| [k2 v2] fs IH]; cbn.
  - now rewrite Hne.
  - destruct (String.eqb k' k2) eqn:E; cbn.
    + apply String.eqb_eq in E. subst k2. now rewrite Hne.
    + destruct (String.eqb k k2); auto.
Qed.

Lemma has_key_set_field (k k' : string) (v : value)
    (fs : list (string * value)) :
  has_key k (set_field k' v fs) = has_key k fs || String.eqb k k'.
Proof.
  induction fs as [| [k2 v2] fs IH]; cbn.
  - now rewrite orb_false_r.
  - destruct (String.eqb k' k2) eqn:E; cbn.
    + apply String.eqb_eq in E. subst k2.
      destruct (String.eqb k k'); cbn; auto using orb_true_r.
      now rewrite orb_false_r.
    + rewrite IH. now rewrite orb_assoc.
Qed.

Lemma In_keys_has_key (k : string) (fs : list (string * value)) :
  In k (keys fs) -> has_key k fs = true.
Proof.
  induction fs as [| [k' v] fs IH]; cbn; [contradiction |].
  intros [-> | H].
  - now rewrite String.eqb_refl.
  - rewrite (IH H). apply orb_true_r.
Qed.

Lemma NoDup_set_field (k : string) (v : value) (fs : list (string * value)) :
  NoDup (keys fs) -> NoDup (keys (set_field k v fs)).
Proof.
  induction fs as [| [k' v'] fs IH]; cbn; intros Hnd.
  - constructor; [intros [] | constructor].
  - inversion Hnd as [| ? ? Hnotin Hrest]; subst.
    destruct (String.eqb k k') eqn:E; cbn.
    + apply String.eqb_eq in E. subst k'. now constructor.
    + constructor; [| now apply IH].
      intros Hin. apply In_keys_has_key in Hin.
      rewrite has_key_set_field in Hin.
      apply orb_true_iff in Hin as [Hin | Hin].
      * apply has_key_In in Hin. contradiction.
      * rewrite String.eqb_sym in Hin. congruence.
Qed.

Lemma has_key_fold (ps acc : list (string * value)) (k : string) :
  has_key k (fold_left assign ps acc) = has_key k acc || has_key k ps.
Proof.
  revert acc. induction ps as [| [k' v'] ps IH]; intros acc; cbn.
  - now rewrite orb_false_r.
  - rewrite IH. unfold assign. cbn. rewrite has_key_set_field.
    now rewrite orb_assoc.
Qed.

Lemma NoDup_fold (ps acc : list (string * value)) :
  NoDup (keys acc) -> NoDup (keys (fold_left assign ps acc)).
Proof.
  revert acc. induction ps as [| kv ps IH]; intros acc H; cbn; auto.
  apply IH. now apply NoDup_set_field.
Qed.

Lemma lookup_fold (ps acc : list (string * value)) (k : string) :
  NoDup (keys ps) ->
  lookup k (fold_left assign ps acc)
  = if has_key k ps then lookup k ps else lookup k acc.
Proof.
  revert acc. induction ps as [| [k' v'] ps IH]; intros acc Hnd; cbn; auto.
  inversion Hnd as [| ? ? Hnotin Hrest]; subst.
  rewrite (IH _ Hrest). unfold assign. cbn.
  destruct (String.eqb k k') eqn:E; cbn.
  - apply String.eqb_eq in E. subst k'.
    destruct (has_key k ps) eqn:Hk.
    + apply has_key_In in Hk. contradiction.
    + apply lookup_set_field_same.
  - destruct (has_key k ps); auto.
    apply lookup_set_field_other. now apply String.eqb_neq.
Qed.

(** X6. The [tokens] listener merges by key: when the stored tokens and the
    new tokens each have distinct property names, the merged object holds
    for every name the new value when the new tokens have that property
    (even with the value [undefined]) and the stored value otherwise -- so a
    stored [refresh_token] survives a refresh that brings none; it has the
    properties of either and no others, each once; and the listener always
    has a JSON text to write. *)
Theorem tokens_listener_merges (tokens newTokens : value) :
  NoDup (keys (own_properties tokens)) ->
  NoDup (keys (own_properties newTokens)) ->
  exists merged,
    merge_tokens tokens newTokens = VObj merged /\
    (forall k,
       lookup k merged
       = if has_key k (own_properties newTokens)
         then lookup k (own_properties newTokens)
         else lookup k (own_properties tokens)) /\
    (forall k,
       has_key k merged
       = has_key k (own_properties tokens)
         || has_key k (own_properties newTokens)) /\
    NoDup (keys merged) /\
    exists text,
      tokens_listener tokens newTokens = Ok text /\
      JSON_stringify (VObj merged) = VStr text.
Proof.
  intros Ht Hn. eexists. split; [reflexivity |].
  unfold copy_properties. fold assign.
  split; [| split; [| split]].
  - intros k. rewrite (lookup_fold _ _ _ Hn).
    destruct (has_key k (own_properties newTokens)); [reflexivity |].
    rewrite (lookup_fold _ _ _ Ht).
    destruct (has_key k (own_properties tokens)) eqn:Hk; [reflexivity |].
    clear - Hk. induction (own_properties tokens) as [| [k' v] fs IH];
      cbn in *; [reflexivity |].
    apply orb_false_elim in Hk as [-> Hk]. now apply IH.
  - intros k. now rewrite !has_key_fold.
  - apply NoDup_fold, NoDup_fold. constructor.
  - unfold tokens_listener, merge_tokens, copy_properties, JSON_stringify.
    fold assign.
    destruct (serialize_object ""
                (fold_left assign (own_properties newTokens)
                   (fold_left assign (own_properties tokens) [])))
      as (s & Hs).
    rewrite Hs. cbn. eauto.
Qed.

Lemma tokens_listener_merges_witness :
  exists merged,
    merge_tokens
      (VObj [ ("access_token", VStr "old");
              ("refresh_token", VStr "keep") ])
      (VObj [ ("access_token", VStr "new"); ("expiry_date", VNum 1772323200000) ])
    = VObj merged /\
    lookup "refresh_token" merged = VStr "keep" /\
    lookup "access_token" merged = VStr "new".
Proof.
  destruct (tokens_listener_merges
              (VObj [ ("access_token", VStr "old");
                      ("refresh_token", VStr "keep") ])
              (VObj [ ("access_token", VStr "new");
                      ("expiry_date", VNum 1772323200000) ]))
    as (merged & Hm & Hl & _).
  - cbn. repeat constructor; cbn; intuition discriminate.
  - cbn. repeat constructor; cbn; intuition discriminate.
  - exists merged. split; [exact Hm |].
    split; [apply (Hl "refresh_token") | apply (Hl "access_token")].
Defined.

(** ** Normalization, beyond absent fields *)

(** X7. [formatTask] replaces every falsy value of the six defaulted fields,
    not only an absent one: a [title] or [notes] that is [null], [false],
    [0] or empty becomes the empty string, a falsy [due], [completed],
    [parent] or [position] becomes [null].  So in a normalized task [title]
    and [notes] are never [undefined] or [null], and the other four fields
    are [null] or truthy. *)
Theorem formatTask_defaults (t : value) (r : list (string * value)) :
  formatTask t = Ok (VObj r) ->
  (forall k, In k ["title"; "notes"] ->
     (truthy (prop t k) = false -> lookup k r = VStr "") /\
     is_nullish (lookup k r) = false) /\
  (forall k, In k ["due"; "completed"; "parent"; "position"] ->
     (truthy (prop t k) = false -> lookup k r = VNull) /\
     (lookup k r = VNull \/ truthy (lookup k r) = true)).
Proof.
  intros H. apply formatTask_inv in H as (fields & Hr & Hget).
  inversion Hr; subst r; clear Hr.
  assert (Hp : forall k, prop t k = lookup k fields).
  { intros k. unfold prop. now rewrite Hget. }
  split; intros k Hk; cbn in Hk; rewrite Hp;
    repeat (destruct Hk as [<- | Hk];
            [ cbn; unfold js_or;
              destruct (truthy (lookup _ fields)) eqn:Ht;
              (split; [congruence || reflexivity |]);
              try (destruct (lookup _ fields); cbn in *; congruence);
              auto
            | ]);
    contradiction.
Qed.

Lemma formatTask_defaults_witness :
  exists r,
    formatTask (VObj [("title", VNull); ("position", VStr "")]) = Ok (VObj r) /\
    lookup "title" r = VStr "" /\ lookup "position" r = VNull.
Proof.
  eexists. split; [reflexivity |].
  destruct (formatTask_defaults
              (VObj [("title", VNull); ("position", VStr "")]) _ eq_refl)
    as (Hs & Hn).
  split.
  - apply (Hs "title"); [cbn; auto | reflexivity].
  - apply (Hn "position"); [cbn; auto | reflexivity].
Defined.

(** ** Lists *)

Lemma log_call_inj (rq1 rq2 : request) (w : world) :
  log_call rq1 w = log_call rq2 w -> rq1 = rq2.
Proof.
  intros H. apply (f_equal calls) in H. cbn in H.
  apply app_inv_head in H. now inversion H.
Qed.

Lemma log_call_fresh (rq : request) (w : world) : log_call rq w <> w.
Proof.
  intros H. apply (f_equal calls) in H. cbn in H.
  apply (f_equal (@length request)) in H.
  rewrite length_app in H. cbn in H. lia.
Qed.

Lemma map_result_bad_item (f : value -> result value) (xs : list value)
    (x : value) :
  (forall y e, f y = Throw e -> err_name e = "TypeError") ->
  In x xs -> (exists e, f x = Throw e) ->
  exists e, map_result f xs = Throw e /\ err_name e = "TypeError".
Proof.
  intros Hf Hin (e & He).
  induction xs as [| y ys IH]; [contradiction |]. cbn.
  destruct (f y) as [b | e'] eqn:Hy; cbn.
  - destruct Hin as [-> | Hin]; [congruence |].
    destruct (IH Hin) as (e2 & -> & Hn). cbn. eauto.
  - eauto.
Qed.

Lemma formatTask_throws_TypeError (y : value) (e : error) :
  formatTask y = Throw e -> err_name e = "TypeError".
Proof. destruct y; cbn; intros H; inversion H; reflexivity. Qed.

(** What the two list operations compute once [buildClient] succeeded:
    one call, then the items of the answer mapped. *)
Lemma listTaskLists_answer (w : world) (api : client) :
  buildClient w = (Ok api, w) ->
  listTaskLists w
  = (let? raw := remote w api (calls w) (mkRequest TasklistsList (VObj [("maxResults", VNum 100)])) in
     let? items := get_prop raw "items" in
     array_map list_entry (js_or items (VArr [])),
     log_call (mkRequest TasklistsList (VObj [("maxResults", VNum 100)])) w).
Proof.
  intros Hb. unfold_api. cbn. rewrite Hb. cbn.
  destruct (remote w api (calls w) _) as [raw | e]; cbn; [| reflexivity].
  destruct (get_prop raw "items"); reflexivity.
Qed.

Lemma listTasks_answer (l o : value) (w : world) (api : client) :
  buildClient w = (Ok api, w) ->
  o <> VNull ->
  listTasks l o w
  = (let? raw := remote w api (calls w) (list_request l o) in
     let? items := get_prop raw "items" in
     array_map formatTask (js_or items (VArr [])),
     log_call (list_request l o) w).
Proof.
  intros Hb Ho. unfold listTasks, list_request, bind, lift, call.
  rewrite Hb. cbn.
  assert (Hd : is_nullish (default_param o (VObj [])) = false)
    by (destruct o; cbn; congruence).
  rewrite !(get_prop_prop _ _ Hd). cbn.
  destruct (remote w api (calls w) _) as [raw | e]; cbn; [| reflexivity].
  destruct (get_prop raw "items"); reflexivity.
Qed.

Lemma listTasks_null_options (l : value) (w : world) :
  exists e, listTasks l VNull w = (Throw e, w).
Proof.
  unfold listTasks, bind, lift.
  destruct (buildClient w) as [[api | e] w1] eqn:Hb;
    apply buildClient_pure in Hb as ->; cbn; eauto.
Qed.

Lemma array_map_edges (f : value -> result value) (items : value) :
  (forall y e, f y = Throw e -> err_name e = "TypeError") ->
  (forall y, is_nullish y = true -> exists e, f y = Throw e) ->
  (truthy items = false -> array_map f (js_or items (VArr [])) = Ok (VArr [])) /\
  (truthy items = true ->
   (forall xs, items <> VArr xs) ->
   exists e, array_map f (js_or items (VArr [])) = Throw e /\
             err_name e = "TypeError") /\
  (forall xs x,
     items = VArr xs -> In x xs -> is_nullish x = true ->
     exists e, array_map f (js_or items (VArr [])) = Throw e /\
               err_name e = "TypeError").
Proof.
  intros Hf Hnull. unfold js_or. split; [| split].
  - intros ->. reflexivity.
  - intros -> Hna. destruct items; cbn; eauto.
    exfalso. now apply (Hna xs).
  - intros xs x -> Hin Hx. cbn.
    destruct (map_result_bad_item f xs x Hf Hin (Hnull x Hx)) as (e & -> & He).
    cbn. eauto.
Qed.

(** X8. Edge answers of the two list operations.  When the operation made
    its call and the remote service answered with a record [raw]: if
    [raw.items] is absent or otherwise falsy the result is the empty list;
    if it is truthy but not an array the operation throws a [TypeError];
    and if it is an array one of whose items is [null] or [undefined] the
    operation throws a [TypeError] -- there is no partial list. *)
Theorem list_edge_answers (op : operation) (w : world) (api : client)
    (rq : request) (raw : value) :
  returns_list op = true ->
  buildClient w = (Ok api, w) ->
  snd (run op w) = log_call rq w ->
  remote w api (calls w) rq = Ok raw ->
  is_nullish raw = false ->
  (truthy (prop raw "items") = false -> fst (run op w) = Ok (VArr [])) /\
  (truthy (prop raw "items") = true ->
   (forall xs, prop raw "items" <> VArr xs) ->
   exists e, fst (run op w) = Throw e /\ err_name e = "TypeError") /\
  (forall xs x,
     prop raw "items" = VArr xs -> In x xs -> is_nullish x = true ->
     exists e, fst (run op w) = Throw e /\ err_name e = "TypeError").
Proof.
  intros Hop Hb Hlog Hr Hraw.
  destruct op as [| l o | | | | | |]; try discriminate Hop; clear Hop; cbn [run] in *.
  - rewrite (listTaskLists_answer w api Hb) in Hlog |- *. cbn [fst snd] in *.
    apply log_call_inj in Hlog. subst rq. rewrite Hr. cbn.
    rewrite (get_prop_prop raw "items" Hraw). cbn.
    apply array_map_edges.
    + intros y e. destruct y; cbn; intros H; inversion H; reflexivity.
    + intros y Hy. destruct y; try discriminate Hy; cbn; eauto.
  - destruct o as [| | b | z | s | xs | fs];
      try (match type of Hlog with
           | context [listTasks _ ?o _] =>
               rewrite (listTasks_answer l o w api Hb ltac:(discriminate))
                 in Hlog |- *
           end;
           cbn [fst snd] in *;
           apply log_call_inj in Hlog; subst rq; rewrite Hr; cbn;
           rewrite (get_prop_prop raw "items" Hraw); cbn;
           apply array_map_edges;
           [ apply formatTask_throws_TypeError
           | intros y Hy; destruct y; try discriminate Hy; cbn; eauto ]).
    destruct (listTasks_null_options l w) as (e & He).
    rewrite He in Hlog. cbn in Hlog. symmetry in Hlog.
    now apply log_call_fresh in Hlog.
Qed.

Lemma list_edge_answers_witness :
  fst (run (OpListTasks (VStr "L") VUndef) echo_empty_world) = Ok (VArr []).
Proof.
  apply (list_edge_answers (OpListTasks (VStr "L") VUndef) echo_empty_world
           demo_client (list_request (VStr "L") VUndef) (VObj []));
    reflexivity.
Defined.

Lemma map_result_list_entry (xs : list value) :
  Forall (fun x => is_nullish x = false) xs ->
  map_result list_entry xs
  = Ok (map (fun x => VObj [ ("id", prop x "id"); ("title", prop x "title");
                             ("updated", prop x "updated") ]) xs).
Proof.
  induction 1 as [| x xs Hx _ IH]; cbn; [reflexivity |].
  unfold list_entry at 1. rewrite !(get_prop_prop x) by assumption. cbn.
  now rewrite IH.
Qed.

(** X9. [listTaskLists] asks for at most 100 lists and, when the answer
    holds an array of items none of which is [null] or [undefined],
    returns one record per item, in order, with exactly the three fields
    [id], [title] and [updated] as the item has them: nothing is
    defaulted, an absent title stays [undefined]. *)
Theorem listTaskLists_projects (w : world) (api : client) (raw : value)
    (xs : list value) :
  buildClient w = (Ok api, w) ->
  remote w api (calls w)
    (mkRequest TasklistsList (VObj [("maxResults", VNum 100)])) = Ok raw ->
  get_prop raw "items" = Ok (VArr xs) ->
  Forall (fun x => is_nullish x = false) xs ->
  listTaskLists w
  = (Ok (VArr (map (fun x => VObj [ ("id", prop x "id");
                                    ("title", prop x "title");
                                    ("updated", prop x "updated") ]) xs)),
     log_call (mkRequest TasklistsList (VObj [("maxResults", VNum 100)])) w).
Proof.
  intros Hb Hr Hitems Hxs.
  rewrite (listTaskLists_answer w api Hb), Hr. cbn. rewrite Hitems. cbn.
  now rewrite (map_result_list_entry xs Hxs).
Qed.

Lemma listTaskLists_projects_witness :
  fst (listTaskLists demo_world)
  = Ok (VArr [VObj [ ("id", VStr "L1"); ("title", VStr "My Tasks");
                     ("updated", VStr "u") ]]).
Proof.
  rewrite (listTaskLists_projects demo_world demo_client
             (VObj [("items",
                     VArr [VObj [ ("id", VStr "L1");
                                  ("title", VStr "My Tasks");
                                  ("updated", VStr "u") ]])])
             [VObj [ ("id", VStr "L1"); ("title", VStr "My Tasks");
                     ("updated", VStr "u") ]]
             eq_refl eq_refl eq_refl).
  - reflexivity.
  - repeat constructor.
Defined.

(** ** The requests of the tools *)

(** X10. With the local files in place, a [list_tasks] call on an argument
    object asks the remote service for at most 100 tasks of the list given,
    of ["@default"] when the id given is absent or otherwise falsy;
    [showCompleted] is the [show_completed] given, [false] when that is
    [undefined] or [null]; [showHidden] is always [false]; [dueMin] and
    [dueMax] are passed as given. *)
Theorem list_tasks_request (a : list (string * value)) (w : world)
    (api : client) :
  buildClient w = (Ok api, w) ->
  exists ps,
    snd (callTool "list_tasks" (VObj a) w)
    = log_call (mkRequest TasksList (VObj ps)) w /\
    lookup "tasklist" ps = js_or (lookup "tasklist_id" a) (VStr "@default") /\
    lookup "maxResults" ps = VNum 100 /\
    lookup "showCompleted" ps
    = js_nullish (lookup "show_completed" a) (VBool false) /\
    lookup "showHidden" ps = VBool false /\
    lookup "dueMin" ps = lookup "due_min" a /\
    lookup "dueMax" ps = lookup "due_max" a.
Proof.
  intros Hb. eexists. split.
  - rewrite callTool_unfold, dispatch_route. cbn [route String.eqb Ascii.eqb Bool.eqb run].
    cbn -[listTasks js_or].
    rewrite (listTasks_answer _ _ w api Hb) by discriminate.
    unfold list_request. cbn -[js_or js_nullish default_param].
    destruct (remote w api (calls w) _) as [raw | e]; cbn -[js_or js_nullish default_param];
      [destruct (get_prop raw "items"); cbn -[js_or js_nullish default_param];
       [destruct (array_map _ _) |] |];
      reflexivity.
  - cbn -[js_or js_nullish]. repeat split.
    unfold js_or, default_param.
    destruct (truthy (lookup "tasklist_id" a)) eqn:Ht; [| reflexivity].
    destruct (lookup "tasklist_id" a); cbn in *; congruence.
Qed.

Lemma list_tasks_request_witness :
  calls (snd (callTool "list_tasks"
                (VObj [("tasklist_id", VStr ""); ("show_completed", VNull)])
                demo_world))
  = [ mkRequest TasksList
        (VObj [ ("tasklist", VStr "@default"); ("maxResults", VNum 100);
                ("showCompleted", VBool false); ("showHidden", VBool false);
                ("dueMin", VUndef); ("dueMax", VUndef) ]) ].
Proof.
  destruct (list_tasks_request
              [("tasklist_id", VStr ""); ("show_completed", VNull)]
              demo_world demo_client eq_refl) as (ps & Hlog & _).
  rewrite Hlog.
  assert (H : snd (callTool "list_tasks"
                     (VObj [ ("tasklist_id", VStr "");
                             ("show_completed", VNull) ]) demo_world)
              = log_call
                  (mkRequest TasksList
                     (VObj [ ("tasklist", VStr "@default");
                             ("maxResults", VNum 100);
                             ("showCompleted", VBool false);
                             ("showHidden", VBool false);
                             ("dueMin", VUndef); ("dueMax", VUndef) ]))
                  demo_world) by reflexivity.
  rewrite Hlog in H. apply log_call_inj in H. rewrite H. reflexivity.
Defined.

(** X11. With the local files in place, whenever the remote service accepts
    the delete, [delete_task] returns [{deleted: true, taskId}] with the
    task id given, whatever the service answered; for a string id the text
    of the envelope is that record on four lines, indented by two spaces. *)
Theorem delete_task_result (a : list (string * value)) (w : world)
    (api : client) (raw : value) :
  buildClient w = (Ok api, w) ->
  remote w api (calls w)
    (mkRequest TasksDelete
       (VObj [ ("tasklist", lookup "tasklist_id" a);
               ("task", lookup "task_id" a) ])) = Ok raw ->
  callTool "delete_task" (VObj a) w
  = (Ok (success_envelope
           (VObj [("deleted", VBool true); ("taskId", lookup "task_id" a)])),
     log_call
       (mkRequest TasksDelete
          (VObj [ ("tasklist", lookup "tasklist_id" a);
                  ("task", lookup "task_id" a) ])) w) /\
  forall id,
    lookup "task_id" a = VStr id ->
    envelope_text
      (success_envelope
         (VObj [("deleted", VBool true); ("taskId", lookup "task_id" a)]))
    = VStr ("{" ++ newline ++ "  " ++ quote "deleted" ++ ": true,"
                ++ newline ++ "  " ++ quote "taskId" ++ ": " ++ quote id
                ++ newline ++ "}").
Proof.
  intros Hb Hr. split.
  - rewrite callTool_unfold, dispatch_route. cbn. unfold_api.
    rewrite Hb. cbn. rewrite Hr. reflexivity.
  - intros id ->. reflexivity.
Qed.

Lemma delete_task_result_witness :
  fst (callTool "delete_task"
         (VObj [("tasklist_id", VStr "L"); ("task_id", VStr "T1")])
         demo_world)
  = Ok (success_envelope
          (VObj [("deleted", VBool true); ("taskId", VStr "T1")])).
Proof.
  destruct (delete_task_result
              [("tasklist_id", VStr "L"); ("task_id", VStr "T1")]
              demo_world demo_client
              (VObj [("id", VStr "T1"); ("status", VStr "needsAction")])
              eq_refl eq_refl) as (H & _).
  rewrite H. reflexivity.
Defined.

(** X12. The five tools that take a task id pass both ids to the remote
    service as given, with no default: with the local files in place their
    one request has [tasklist] and [task] equal to the [tasklist_id] and
    [task_id] of the argument object, [undefined] when absent. *)
Theorem id_tools_pass_ids (n : string) (a : list (string * value))
    (w : world) (api : client) :
  buildClient w = (Ok api, w) ->
  In n ["get_task"; "update_task"; "complete_task"; "delete_task";
        "move_task"] ->
  exists m ps,
    snd (callTool n (VObj a) w) = log_call (mkRequest m (VObj ps)) w /\
    lookup "tasklist" ps = lookup "tasklist_id" a /\
    lookup "task" ps = lookup "task_id" a.
Proof.
  intros Hb Hn. cbn in Hn.
  destruct (callTool n (VObj a) w) as [r w'] eqn:H.
  rewrite callTool_unfold, dispatch_route in H.
  repeat (destruct Hn as [<- | Hn];
          [ cbn in H; unfold_api; cbn in H; rewrite Hb in H; cbn in H;
            repeat step_any H; inversion H; subst; clear H;
            do 2 eexists; (split; [reflexivity |]); split; reflexivity
          | ]).
  contradiction.
Qed.

Lemma id_tools_pass_ids_witness :
  exists m ps,
    snd (callTool "move_task" (VObj [("task_id", VStr "T1")]) demo_world)
    = log_call (mkRequest m (VObj ps)) demo_world /\
    lookup "tasklist" ps = VUndef /\ lookup "task" ps = VStr "T1".
Proof.
  apply (id_tools_pass_ids "move_task" [("task_id", VStr "T1")] demo_world
           demo_client eq_refl).
  cbn. auto 6.
Defined.

(** ** Registry and dispatcher *)

(** X13. The registry and the [switch] agree: a name is one of the tools
    [listTools] advertises exactly when the dispatcher routes it to an
    operation, and it is not one exactly when every call under that name
    throws [Unknown tool: <name>] before anything else happens. *)
Theorem registry_matches_dispatch (n : string) :
  (is_tool n = true <-> forall a, exists op, route n a = Some op) /\
  (is_tool n = false <->
   forall args w,
     dispatch n args w = (Throw (Error ("Unknown tool: " ++ n)), w)).
Proof.
  split; split.
  - intros H a. now apply route_is_tool.
  - intros H. destruct (H []) as (op & Hr).
    destruct (is_tool n) eqn:Hn; [reflexivity |].
    pose proof (dispatch_route n []) as Hd.
    rewrite (is_tool_false n Hn), Hr in Hd.
    apply (f_equal (fun m => fst (m unauthorized_world))) in Hd.
    rewrite run_missing in Hd by (right; reflexivity).
    cbn in Hd. discriminate Hd.
  - intros H args w. now rewrite (is_tool_false n H).
  - intros H. destruct (is_tool n) eqn:Hn; [| reflexivity].
    specialize (H (VObj []) unauthorized_world).
    rewrite dispatch_route in H.
    destruct (route_is_tool n [] Hn) as (op & Hr). rewrite Hr in H.
    rewrite run_missing in H by (right; reflexivity).
    cbn in H. discriminate H.
Qed.

Lemma registry_matches_dispatch_witness :
  dispatch "tasks_purge" VUndef demo_world
  = (Throw (Error "Unknown tool: tasks_purge"), demo_world).
Proof.
  apply (registry_matches_dispatch "tasks_purge"). reflexivity.
Defined.

(** X14. A tool call depends on its argument object only through the
    parameters the tool declares in its [inputSchema]: two argument
    objects that agree on every declared parameter give the same envelope
    and the same world, whatever else they hold. *)
Theorem dispatch_reads_declared_only (t : tool) (a a' : list (string * value))
    (w : world) :
  In t TOOLS ->
  (forall k, In k (param_names (inputSchema t)) ->
             lookup k a = lookup k a') ->
  callTool (name t) (VObj a) w = callTool (name t) (VObj a') w.
Proof.
  intros Ht Hsame. rewrite !callTool_unfold, !dispatch_route.
  cbn in Ht.
  repeat (destruct Ht as [<- | Ht];
          [ cbn in Hsame; cbn -[run];
            repeat match goal with
                   | |- context [lookup ?k a] =>
                       rewrite (Hsame k) by (cbn; tauto)
                   end;
            reflexivity
          | ]).
  contradiction.
Qed.

Lemma dispatch_reads_declared_only_witness :
  callTool "create_task"
    (VObj [("title", VStr "Buy milk"); ("status", VStr "completed")])
    echo_world
  = callTool "create_task" (VObj [("title", VStr "Buy milk")]) echo_world.
Proof.
  apply (dispatch_reads_declared_only
           (mkTool "create_task" "Create a new task in a task list."
              (mkSchema "object"
                 [ ("tasklist_id",
                    mkProp "string"
                      "Task list ID. Use '@default' for the default list."
                      (Some (VStr "@default")) None);
                   ("title", str_prop "Task title.");
                   ("notes", str_prop "Task description / notes.");
                   ("due",
                    str_prop "Due date as ISO 8601 string, e.g. '2026-03-01T00:00:00.000Z'.");
                   ("parent", str_prop "Parent task ID (for sub-tasks).") ]
                 ["title"]))).
  - cbn. auto 8.
  - intros k Hk. cbn in Hk.
    repeat (destruct Hk as [<- | Hk]; [reflexivity |]). contradiction.
Defined.

(** X15. A call that carries no argument object ([undefined] or [null]
    arguments): [list_task_lists] never reads its arguments and behaves as
    on an empty object; each of the other seven tools fails on its first
    read with a [TypeError], returned as an error envelope, and makes no
    remote call, whether or not the local files are in place. *)
Theorem call_without_arguments (n : string) (args : value) (w : world) :
  is_nullish args = true ->
  callTool "list_task_lists" args w = callTool "list_task_lists" (VObj []) w /\
  (is_tool n = true -> n <> "list_task_lists" ->
   exists e,
     callTool n args w = (Ok (error_envelope e), w) /\
     err_name e = "TypeError").
Proof.
  intros Hargs. split.
  - rewrite !callTool_unfold. reflexivity.
  - intros Hn Hne. apply is_tool_cases in Hn. cbn in Hn.
    destruct Hn as [<- | Hn]; [congruence |].
    destruct args; try discriminate Hargs;
      repeat (destruct Hn as [<- | Hn];
              [eexists; split; reflexivity |]);
      contradiction.
Qed.

Lemma call_without_arguments_witness :
  exists e,
    callTool "list_tasks" VUndef demo_world
    = (Ok (error_envelope e), demo_world) /\
    err_name e = "TypeError".
Proof.
  apply (call_without_arguments "list_tasks" VUndef demo_world);
    [reflexivity | reflexivity | discriminate].
Defined.

(** ** auth.js *)

Lemma exchange_and_write_ok (code : value)
    (getToken : value -> result value) (write_error : option error)
    (data : string) :
  exchange_and_write code getToken write_error = Ok data <->
  (write_error = None /\
   exists answer,
     getToken code = Ok answer /\ is_nullish answer = false /\
     JSON_stringify (prop answer "tokens") = VStr data).
Proof.
  unfold exchange_and_write. split.
  - destruct (getToken code) as [answer | e]; cbn; [| discriminate].
    destruct (is_nullish answer) eqn:Hn.
    { destruct (get_prop_nullish answer "tokens" Hn) as (e & -> & _).
      discriminate. }
    rewrite (get_prop_prop answer "tokens" Hn). cbn.
    destruct (JSON_stringify (prop answer "tokens")) eqn:Hj; cbn;
      try discriminate.
    destruct write_error; [discriminate |].
    intros H. inversion H; subst. eauto.
  - intros (-> & answer & -> & Hn & Hj). cbn.
    rewrite (get_prop_prop answer "tokens" Hn). cbn. now rewrite Hj.
Qed.

(** X16. The callback of the authorization server writes the tokens file
    exactly when the request URL parsed, a code was given, the exchange
    answered with a record whose [tokens] serialize to a JSON text, and the
    write succeeded; what it writes is that text.  It calls
    [process.exit(0)] exactly when the tokens were written, and
    [process.exit(1)] exactly when the URL parsed, a code was given and
    they were not.  When [new URL] throws, the callback rejects with that
    error and does nothing else: no write and no call of [process.exit]. *)
Theorem auth_callback_writes_on_success (url_code : result value)
    (getToken : value -> result value) (write_error : option error) :
  let trace := auth_callback url_code getToken write_error in
  (forall data,
     In (WriteTokens data) trace <->
     (exists code,
        url_code = Ok code /\ truthy code = true /\ write_error = None /\
        exists answer,
          getToken code = Ok answer /\ is_nullish answer = false /\
          JSON_stringify (prop answer "tokens") = VStr data)) /\
  (In (Exit 0) trace <-> existsb is_write trace = true) /\
  (In (Exit 1) trace <->
   (exists code, url_code = Ok code /\ truthy code = true) /\
   existsb is_write trace = false) /\
  (forall e, url_code = Throw e -> trace = [Rejected e]).
Proof.
  unfold auth_callback.
  destruct url_code as [code | e0].
  2: { split; [| split; [| split]].
       - intros data. cbn. split.
         + intros [H | []]. discriminate H.
         + intros (code & H & _). discriminate H.
       - cbn. split; [intros [H | []]; discriminate H | discriminate].
       - cbn. split; [intros [H | []]; discriminate H |].
         intros ((code & H & _) & _). discriminate H.
       - intros e H. inversion H. reflexivity. }
  destruct (truthy code) eqn:Hc; cbn [negb].
  - destruct (exchange_and_write code getToken write_error) as [d | err]
      eqn:Hx.
    + split; [| split; [| split]].
      * intros data. cbn. split.
        -- intros H. repeat (destruct H as [H | H]; try discriminate H);
             try contradiction.
           inversion H; subst. exists code. split; [reflexivity |].
           split; [exact Hc |]. now apply exchange_and_write_ok.
        -- intros (code' & Hcode & _ & Hrest). inversion Hcode; subst code'.
           apply exchange_and_write_ok in Hrest. rewrite Hx in Hrest.
           inversion Hrest. auto.
      * cbn. split; auto 8.
      * cbn. split.
        -- intros H. repeat (destruct H as [H | H]; try discriminate H).
           contradiction.
        -- intros (_ & H). discriminate H.
      * intros e H. discriminate H.
    + split; [| split; [| split]].
      * intros data. cbn. split.
        -- intros H. repeat (destruct H as [H | H]; try discriminate H).
           contradiction.
        -- intros (code' & Hcode & _ & Hrest). inversion Hcode; subst code'.
           apply exchange_and_write_ok in Hrest. rewrite Hx in Hrest.
           discriminate Hrest.
      * cbn. split.
        -- intros H. repeat (destruct H as [H | H]; try discriminate H).
           contradiction.
        -- discriminate.
      * cbn. split; [| auto 8].
        intros _. split; [eauto | reflexivity].
      * intros e H. discriminate H.
  - split; [| split; [| split]].
    + intros data. cbn. split.
      * intros [H | []]. discriminate H.
      * intros (code' & Hcode & H & _). inversion Hcode; subst code'.
        congruence.
    + cbn. split; [intros [H | []]; discriminate H | discriminate].
    + cbn. split; [intros [H | []]; discriminate H |].
      intros ((code' & Hcode & H) & _). inversion Hcode; subst code'.
      congruence.
    + intros e H. discriminate H.
Qed.

(** X17. A request whose URL parses gets exactly one response.  Without a
    code (none, or an empty one) the callback only answers
    [No code received. Try again.]: no exchange is attempted and the
    server keeps running.  With a code the exchange is attempted once and
    the callback always ends by closing the server and calling
    [process.exit]; on failure the response is [Error getting tokens: ]
    followed by the message of the error.  A request whose URL does not
    parse gets no response: [new URL] throws before the [try] and the
    callback rejects with that error. *)
Theorem auth_callback_shape (url_code : result value)
    (getToken : value -> result value) (write_error : option error) :
  let trace := auth_callback url_code getToken write_error in
  length (filter is_respond trace)
  = match url_code with Ok _ => 1 | Throw _ => 0 end /\
  (forall e, url_code = Throw e -> trace = [Rejected e]) /\
  (forall code,
     url_code = Ok code ->
     length (filter is_exchange trace) = (if truthy code then 1 else 0) /\
     (truthy code = false ->
      trace = [Respond "No code received. Try again."]) /\
     (truthy code = true ->
      exists before status,
        trace
        = (ExchangeCode code :: before ++ [CloseServer; Exit status])%list /\
        existsb is_exit before = false /\
        (status = 0%Z \/ status = 1%Z)) /\
     (forall err,
        exchange_and_write code getToken write_error = Throw err ->
        truthy code = true ->
        In (Respond ("Error getting tokens: " ++ message err)) trace /\
        In (LogError err) trace)).
Proof.
  unfold auth_callback.
  destruct url_code as [code | e0].
  2: { split; [reflexivity |]. split.
       - intros e H. inversion H. reflexivity.
       - intros code H. discriminate H. }
  assert (Hone : length (filter is_respond
                   (if negb (truthy code)
                    then [Respond "No code received. Try again."]
                    else match exchange_and_write code getToken write_error
                         with
                         | Ok data => on_success code data
                         | Throw err => on_failure code err
                         end)) = 1).
  { destruct (truthy code); cbn; [| reflexivity].
    destruct (exchange_and_write code getToken write_error); reflexivity. }
  split; [exact Hone |]. split; [intros e H; discriminate H |].
  intros code' Hcode. inversion Hcode; subst code'. clear Hcode Hone.
  destruct (truthy code) eqn:Hc; cbn [negb].
  - destruct (exchange_and_write code getToken write_error) as [d | err]
      eqn:Hx; cbn.
    + split; [reflexivity |]. split; [discriminate |]. split.
      * intros _. eexists [_; _; _], 0%Z.
        split; [reflexivity |]. split; [reflexivity | auto].
      * intros err H. discriminate H.
    + split; [reflexivity |]. split; [discriminate |]. split.
      * intros _. eexists [_; _], 1%Z.
        split; [reflexivity |]. split; [reflexivity | auto].
      * intros err' H _. inversion H; subst. auto.
  - cbn. split; [reflexivity |]. split; [reflexivity |].
    split; [discriminate |].
    intros err _ H. discriminate H.
Qed.

Lemma auth_callback_writes_on_success_witness :
  In (Exit 0)
     (auth_callback (Ok (VStr "4/0AbCd"))
        (fun _ => Ok (VObj [("tokens",
                             VObj [("access_token", VStr "tok")])]))
        None) /\
  In (Exit 1)
     (auth_callback (Ok (VStr "4/0AbCd"))
        (fun _ => Throw (Error "invalid_grant")) None) /\
  auth_callback (Throw invalid_url)
    (fun _ => Throw (Error "invalid_grant")) None
  = [Rejected invalid_url].
Proof.
  split; [| split].
  - apply (auth_callback_writes_on_success (Ok (VStr "4/0AbCd"))
             (fun _ => Ok (VObj [("tokens",
                                  VObj [("access_token", VStr "tok")])]))
             None).
    reflexivity.
  - apply (auth_callback_writes_on_success (Ok (VStr "4/0AbCd"))
             (fun _ => Throw (Error "invalid_grant")) None).
    split; [eexists; split; reflexivity | reflexivity].
  - apply (auth_callback_writes_on_success (Throw invalid_url)
             (fun _ => Throw (Error "invalid_grant")) None).
    reflexivity.
Defined.

Lemma auth_callback_shape_witness :
  auth_callback (Ok (VStr "")) (fun _ => Throw (Error "invalid_grant")) None
  = [Respond "No code received. Try again."] /\
  In (Respond "Error getting tokens: invalid_grant")
     (auth_callback (Ok (VStr "4/0AbCd"))
        (fun _ => Throw (Error "invalid_grant")) None) /\
  length (filter is_respond
            (auth_callback (Throw invalid_url)
               (fun _ => Throw (Error "invalid_grant")) None)) = 0.
Proof.
  split; [| split].
  - destruct (auth_callback_shape (Ok (VStr ""))
                (fun _ => Throw (Error "invalid_grant")) None)
      as (_ & _ & Hcode).
    destruct (Hcode (VStr "") eq_refl) as (_ & Hnone & _).
    apply Hnone. reflexivity.
  - destruct (auth_callback_shape (Ok (VStr "4/0AbCd"))
                (fun _ => Throw (Error "invalid_grant")) None)
      as (_ & _ & Hcode).
    destruct (Hcode (VStr "4/0AbCd") eq_refl) as (_ & _ & _ & Herr).
    apply (Herr (Error "invalid_grant")); reflexivity.
  - destruct (auth_callback_shape (Throw invalid_url)
                (fun _ => Throw (Error "invalid_grant")) None)
      as (_ & Hrej & _).
    rewrite (Hrej invalid_url eq_refl). reflexivity.
Defined.

Lemma run_single_shot_witness :
  exists rq,
    snd (run (OpCompleteTask (VStr "L") (VStr "T1")) demo_world)
    = log_call rq demo_world /\
    method rq = TasksPatch.
Proof.
  destruct (run_single_shot (OpCompleteTask (VStr "L") (VStr "T1"))
              demo_world) as [(e & H) | (api & rq & _ & Hlog & Hm & _)].
  - discriminate H.
  - exists rq. split; [exact Hlog | exact Hm].
Defined.

(** ** Normalization applied to the result of every operation *)

Lemma task_op_answer (op : operation) (w : world) (api : client) :
  returns_task op = true ->
  readable op = true ->
  buildClient w = (Ok api, w) ->
  exists rq,
    snd (run op w) = log_call rq w /\ method rq = op_method op /\
    forall raw, remote w api (calls w) rq = Ok raw ->
                run op w = (formatTask raw, log_call rq w).
Proof.
  intros Hop Hread Hb.
  destruct op as [| | l t | l task | l t u | l t | | l t o];
    try discriminate Hop; clear Hop; cbn in Hread;
    try apply negb_true_iff in Hread;
    unfold_api; cbn; rewrite Hb; cbn;
    rewrite ?(get_prop_prop _ _ Hread); cbn;
    try match goal with
        | |- context [strict_eq_str ?v ?c] => destruct (strict_eq_str v c); cbn
        end;
    (eexists; split;
     [ destruct (remote w api (calls w) _); reflexivity
     | split; [reflexivity | intros raw Hr; rewrite Hr; reflexivity] ]).
Qed.

Lemma map_result_formatTask (xs : list value) :
  Forall (fun x => is_nullish x = false) xs ->
  exists rs, map_result formatTask xs = Ok rs.
Proof.
  induction 1 as [| x xs Hx _ (rs & IH)]; cbn; [eauto |].
  destruct x; try discriminate Hx; cbn; rewrite IH; cbn; eauto.
Qed.

Lemma listTasks_forward (l o : value) (w : world) (api : client) :
  readable (OpListTasks l o) = true ->
  buildClient w = (Ok api, w) ->
  exists rq,
    snd (listTasks l o w) = log_call rq w /\ method rq = TasksList /\
    forall raw xs,
      remote w api (calls w) rq = Ok raw ->
      get_prop raw "items" = Ok (VArr xs) ->
      listTasks l o w
      = (let? rs := map_result formatTask xs in Ok (VArr rs),
         log_call rq w) /\
      (Forall (fun x => is_nullish x = false) xs ->
       exists rs,
         listTasks l o w = (Ok (VArr rs), log_call rq w) /\
         Forall2 (fun x y => formatTask x = Ok y) xs rs).
Proof.
  intros Hread Hb. cbn in Hread. apply negb_true_iff in Hread.
  assert (Ho : o <> VNull) by (intros ->; discriminate Hread).
  exists (list_request l o).
  rewrite (listTasks_answer l o w api Hb Ho).
  split; [reflexivity |]. split; [reflexivity |].
  intros raw xs Hr Hitems. rewrite Hr. cbn. rewrite Hitems. cbn.
  split; [reflexivity |].
  intros Hxs. destruct (map_result_formatTask xs Hxs) as (rs & Hrs).
  exists rs. rewrite Hrs. split; [reflexivity |].
  now apply map_result_Forall2.
Qed.

(** C4. Normalization of a raw task record: an absent [title] or [notes]
    becomes the empty string, an absent [due], [completed], [parent] or
    [position] becomes [null], a truthy value of these six fields is kept,
    [status] and [updated] pass through unchanged; and the result of every
    operation that returns a task (get, create, update, complete, move) is
    [formatTask] of the record the remote service answered with, the result
    of list is [formatTask] of each of the answered items.  This holds in
    both directions: whatever such an operation returns is [formatTask] of
    the answer, and, with the local files in place and its argument objects
    readable, the operation makes its one call and, once the remote service
    answers with [raw], returns [formatTask raw] (list: [formatTask] mapped
    over the items of [raw]); the same at the tool level, where the argument
    objects are always readable. *)
Theorem normalization_rule :
  (forall fields : list (string * value),
     exists r,
       formatTask (VObj fields) = Ok (VObj r) /\
       (forall k, In k ["title"; "notes"] ->
                  lookup k fields = VUndef -> lookup k r = VStr "") /\
       (forall k, In k ["due"; "completed"; "parent"; "position"] ->
                  lookup k fields = VUndef -> lookup k r = VNull) /\
       (forall k, In k ["title"; "notes"; "due"; "completed"; "parent";
                        "position"] ->
                  truthy (lookup k fields) = true ->
                  lookup k r = lookup k fields) /\
       (forall k, In k ["status"; "updated"] ->
                  lookup k r = lookup k fields)) /\
  (forall op w r w',
     returns_task op = true ->
     run op w = (Ok r, w') ->
     exists api rq raw,
       buildClient w = (Ok api, w) /\ w' = log_call rq w /\
       remote w api (calls w) rq = Ok raw /\ formatTask raw = Ok r) /\
  (forall l o w r w',
     listTasks l o w = (Ok r, w') ->
     exists api rq raw items rs,
       buildClient w = (Ok api, w) /\ w' = log_call rq w /\
       remote w api (calls w) rq = Ok raw /\
       get_prop raw "items" = Ok items /\
       r = VArr rs /\
       match js_or items (VArr []) with
       | VArr xs => Forall2 (fun x y => formatTask x = Ok y) xs rs
       | _ => False
       end) /\
  (forall op w api,
     returns_task op = true ->
     readable op = true ->
     buildClient w = (Ok api, w) ->
     exists rq,
       snd (run op w) = log_call rq w /\ method rq = op_method op /\
       forall raw, remote w api (calls w) rq = Ok raw ->
                   run op w = (formatTask raw, log_call rq w)) /\
  (forall l o w api,
     readable (OpListTasks l o) = true ->
     buildClient w = (Ok api, w) ->
     exists rq,
       snd (listTasks l o w) = log_call rq w /\ method rq = TasksList /\
       forall raw xs,
         remote w api (calls w) rq = Ok raw ->
         get_prop raw "items" = Ok (VArr xs) ->
         listTasks l o w
         = (let? rs := map_result formatTask xs in Ok (VArr rs),
            log_call rq w) /\
         (Forall (fun x => is_nullish x = false) xs ->
          exists rs,
            listTasks l o w = (Ok (VArr rs), log_call rq w) /\
            Forall2 (fun x y => formatTask x = Ok y) xs rs)) /\
  (forall n a w api,
     In n ["get_task"; "create_task"; "update_task"; "complete_task";
           "move_task"] ->
     buildClient w = (Ok api, w) ->
     exists rq,
       snd (dispatch n (VObj a) w) = log_call rq w /\
       forall raw, remote w api (calls w) rq = Ok raw ->
                   dispatch n (VObj a) w = (formatTask raw, log_call rq w)) /\
  (forall a w api,
     buildClient w = (Ok api, w) ->
     exists rq,
       snd (dispatch "list_tasks" (VObj a) w) = log_call rq w /\
       forall raw xs,
         remote w api (calls w) rq = Ok raw ->
         get_prop raw "items" = Ok (VArr xs) ->
         dispatch "list_tasks" (VObj a) w
         = (let? rs := map_result formatTask xs in Ok (VArr rs),
            log_call rq w)).
Proof.
  split; [| split; [| split; [| split; [| split; [| split]]]]].
  - intros fields. exists (formatted fields).
    split; [apply formatTask_object |].
    repeat split; intros k Hk; cbn in Hk;
      repeat (destruct Hk as [<- | Hk]; [cbn | ]); try contradiction;
      try reflexivity;
      try (intros ->; reflexivity);
      try (intros Ht; unfold js_or; now rewrite Ht).
  - intros op w r w'. apply task_op_formatted.
  - intros l o w r w'. apply listTasks_formatted.
  - intros op w api. apply task_op_answer.
  - intros l o w api. apply listTasks_forward.
  - intros n a w api Hn Hb. rewrite dispatch_route. cbn in Hn.
    repeat (destruct Hn as [<- | Hn];
            [ cbn [route String.eqb Ascii.eqb Bool.eqb];
              match goal with
              | |- context [run ?op] =>
                  destruct (task_op_answer op w api eq_refl eq_refl Hb)
                    as (rq & Hlog & _ & Hraw)
              end;
              exists rq; split; [exact Hlog | exact Hraw]
            | ]).
    contradiction.
  - intros a w api Hb. rewrite dispatch_route.
    cbn [route String.eqb Ascii.eqb Bool.eqb].
    destruct (listTasks_forward
                (js_or (lookup "tasklist_id" a) (VStr "@default"))
                (VObj [ ("showCompleted", lookup "show_completed" a);
                        ("dueMin", lookup "due_min" a);
                        ("dueMax", lookup "due_max" a) ])
                w api eq_refl Hb) as (rq & Hlog & _ & Hraw).
    exists rq. split; [exact Hlog |].
    intros raw xs Hr Hitems. now destruct (Hraw raw xs Hr Hitems).
Qed.

Lemma normalization_rule_witness :
  (exists r,
     formatTask (VObj [("id", VStr "T1"); ("notes", VStr "n")]) = Ok (VObj r) /\
     lookup "title" r = VStr "" /\ lookup "due" r = VNull /\
     lookup "notes" r = VStr "n") /\
  (exists raw,
     formatTask raw
     = Ok (VObj (formatted [("id", VStr "T1");
                            ("status", VStr "needsAction")]))) /\
  (exists rq,
     run (OpUpdateTask (VStr "L") (VStr "T1") (VObj [("title", VStr "t")]))
       demo_world
     = (formatTask (VObj [("id", VStr "T1"); ("status", VStr "needsAction")]),
        log_call rq demo_world)) /\
  (exists rq,
     dispatch "move_task"
       (VObj [("tasklist_id", VStr "L"); ("task_id", VStr "T1")]) demo_world
     = (formatTask (VObj [("id", VStr "T1"); ("status", VStr "needsAction")]),
        log_call rq demo_world)).
Proof.
  destruct normalization_rule as (Hfmt & Hop & _ & Hfwd & _ & Htool & _).
  split; [| split; [| split]].
  - destruct (Hfmt [("id", VStr "T1"); ("notes", VStr "n")])
      as (r & Hr & Hstr & Hnull & Hkeep & _).
    exists r. split; [exact Hr |]. split; [| split].
    + apply Hstr; [cbn; auto | reflexivity].
    + apply Hnull; [cbn; auto | reflexivity].
    + rewrite (Hkeep "notes"); [reflexivity | cbn; auto | reflexivity].
  - destruct (Hop (OpGetTask (VStr "L") (VStr "T1")) demo_world
                (VObj (formatted [("id", VStr "T1");
                                  ("status", VStr "needsAction")]))
                (log_call (mkRequest TasksGet
                             (VObj [("tasklist", VStr "L");
                                    ("task", VStr "T1")])) demo_world)
                eq_refl eq_refl)
      as (api & rq & raw & _ & _ & _ & Hraw).
    exists raw. exact Hraw.
  - destruct (Hfwd (OpUpdateTask (VStr "L") (VStr "T1")
                      (VObj [("title", VStr "t")]))
                demo_world demo_client eq_refl eq_refl eq_refl)
      as (rq & Hlog & _ & Hraw).
    exists rq. apply Hraw.
    assert (H : snd (run (OpUpdateTask (VStr "L") (VStr "T1")
                            (VObj [("title", VStr "t")])) demo_world)
                = log_call
                    (mkRequest TasksPatch
                       (VObj [ ("tasklist", VStr "L"); ("task", VStr "T1");
                               ("requestBody",
                                VObj [("title", VStr "t")]) ]))
                    demo_world) by reflexivity.
    rewrite Hlog in H. apply log_call_inj in H. rewrite H. reflexivity.
  - destruct (Htool "move_task"
                [("tasklist_id", VStr "L"); ("task_id", VStr "T1")]
                demo_world demo_client) as (rq & Hlog & Hraw).
    + cbn. auto 6.
    + reflexivity.
    + exists rq. apply Hraw.
      assert (H : snd (dispatch "move_task"
                         (VObj [ ("tasklist_id", VStr "L");
                                 ("task_id", VStr "T1") ]) demo_world)
                  = log_call
                      (mkRequest TasksMove
                         (VObj [ ("tasklist", VStr "L"); ("task", VStr "T1");
                                 ("parent", VUndef); ("previous", VUndef) ]))
                      demo_world) by reflexivity.
      rewrite Hlog in H. apply log_call_inj in H. rewrite H. reflexivity.
Defined.
